(** * react-sommelier: the state and interaction model of [src/App.js]

    A shallow embedding of the single source file of the application: the
    React state of [App] (active tab, draft input, message list), the event
    handlers that write it, the one-shot timers that [handleSend] schedules,
    and the view tree the components return. *)

From Stdlib Require Import List Bool Arith NArith Lia String Ascii.
Import ListNotations.

Set Warnings "-register-all".

Local Open Scope N_scope.

(** ** JavaScript strings

    A JavaScript string is a sequence of 16-bit code units.  The literals of
    the source are written here as ordinary string literals (UTF-8 encoded,
    like the source file) and decoded to code units by [js]. *)

Module JsString.

Definition code_unit := N.
Definition t := list code_unit.

Definition byte (a : ascii) : N := N_of_ascii a.

(** Continuation byte of a UTF-8 sequence: its low six bits. *)
Definition cont (a : ascii) : N := N.land (byte a) 0x3F.

(** Code point to UTF-16: one unit in the basic plane, else a surrogate pair. *)
Definition units_of_code_point (cp : N) : t :=
  if cp <? 0x10000 then [cp]
  else let v := cp - 0x10000 in
       [0xD800 + N.shiftr v 10; 0xDC00 + N.land v 0x3FF].

Fixpoint js (s : string) : t :=
  match s with
  | EmptyString => []
  | String a r =>
      let b := byte a in
      if b <? 0x80 then b :: js r
      else if b <? 0xE0 then
        match r with
        | String a1 r1 =>
            units_of_code_point (N.lor (N.shiftl (N.land b 0x1F) 6) (cont a1))
              ++ js r1
        | _ => [0xFFFD]
        end
      else if b <? 0xF0 then
        match r with
        | String a1 (String a2 r2) =>
            units_of_code_point
              (N.lor (N.shiftl (N.land b 0x0F) 12)
                 (N.lor (N.shiftl (cont a1) 6) (cont a2)))
              ++ js r2
        | _ => [0xFFFD]
        end
      else
        match r with
        | String a1 (String a2 (String a3 r3)) =>
            units_of_code_point
              (N.lor (N.shiftl (N.land b 0x07) 18)
                 (N.lor (N.shiftl (cont a1) 12)
                    (N.lor (N.shiftl (cont a2) 6) (cont a3))))
              ++ js r3
        | _ => [0xFFFD]
        end
  end.

Definition eqb (a b : t) : bool :=
  if list_eq_dec N.eq_dec a b then true else false.

(** ECMAScript WhiteSpace and LineTerminator code points, the characters
    that [String.prototype.trim] strips. *)
Definition isWhiteSpace (c : code_unit) : bool :=
  (c =? 0x0009) || (c =? 0x000B) || (c =? 0x000C) || (c =? 0xFEFF)
  || (c =? 0x0020) || (c =? 0x00A0) || (c =? 0x1680)
  || ((0x2000 <=? c) && (c <=? 0x200A))
  || (c =? 0x202F) || (c =? 0x205F) || (c =? 0x3000).

Definition isLineTerminator (c : code_unit) : bool :=
  (c =? 0x000A) || (c =? 0x000D) || (c =? 0x2028) || (c =? 0x2029).

Definition isTrimmed (c : code_unit) : bool :=
  isWhiteSpace c || isLineTerminator c.

Fixpoint trimStart (s : t) : t :=
  match s with
  | [] => []
  | c :: r => if isTrimmed c then trimStart r else s
  end.

Definition trimEnd (s : t) : t := rev (trimStart (rev s)).

(** [s.trim()] *)
Definition trim (s : t) : t := trimEnd (trimStart s).

(** ToBoolean on a string: only the empty string is falsy. *)
Definition truthy (s : t) : bool :=
  match s with
  | [] => false
  | _ :: _ => true
  end.

(** Number to its decimal string, as a template literal renders it. *)
Fixpoint digits (d : Decimal.uint) : t :=
  match d with
  | Decimal.Nil => []
  | Decimal.D0 r => 48 :: digits r
  | Decimal.D1 r => 49 :: digits r
  | Decimal.D2 r => 50 :: digits r
  | Decimal.D3 r => 51 :: digits r
  | Decimal.D4 r => 52 :: digits r
  | Decimal.D5 r => 53 :: digits r
  | Decimal.D6 r => 54 :: digits r
  | Decimal.D7 r => 55 :: digits r
  | Decimal.D8 r => 56 :: digits r
  | Decimal.D9 r => 57 :: digits r
  end.

Definition ofNumber (n : N) : t := digits (N.to_uint n).

End JsString.

Import JsString.
Definition jsstring : Type := JsString.t.

(** ** Data model *)

(** [message.sender] is one of the two strings ['bot'] and ['user']. *)
Inductive Sender : Type := bot | user.

Definition Sender_name (s : Sender) : jsstring :=
  match s with
  | bot => js "bot"
  | user => js "user"
  end.

Definition Sender_eqb (a b : Sender) : bool :=
  match a, b with
  | bot, bot | user, user => true
  | _, _ => false
  end.

Record Wine : Type := mkWine {
  name : jsstring;
  region : jsstring;
  grape : jsstring;
  points : N;
  description : jsstring;
  price : jsstring
}.

(** A message object; [wines] is [None] when the property is absent. *)
Record Message : Type := mkMessage {
  sender : Sender;
  text : jsstring;
  wines : option (list Wine)
}.

(** The identifiers of the [tabs] table, the only values [setActiveTab]
    is ever called with. *)
Inductive Tab : Type := chat | profile | cellar.

Definition Tab_id (t : Tab) : jsstring :=
  match t with
  | chat => js "chat"
  | profile => js "profile"
  | cellar => js "cellar"
  end.

Definition Tab_eqb (a b : Tab) : bool :=
  match a, b with
  | chat, chat | profile, profile | cellar, cellar => true
  | _, _ => false
  end.

Record TabEntry : Type := mkTab { id : Tab; label : jsstring }.

Definition tabs : list TabEntry :=
  [ mkTab chat (js "Chat"); mkTab profile (js "Profil");
    mkTab cellar (js "Keller") ].

Record Slot : Type := mkSlot { filled : bool }.

(** ** The session: React state, clock and pending timers *)

(** The closure handed to [setTimeout] in [handleSend] closes over one
    variable, [newMessages]; a pending timer is that captured array and the
    time at which the callback becomes due. *)
Record Timer : Type := mkTimer {
  due : N;
  newMessages : list Message
}.

Record Session : Type := mkSession {
  activeTab : Tab;
  inputValue : jsstring;
  messages : list Message;
  now : N;
  timers : list Timer
}.

Definition seedMessages : list Message :=
  [ mkMessage bot
      (js "Guten Abend! Ich bin Ihr persönlicher Sommelier. Wie darf ich Ihnen heute behilflich sein?")
      None;
    mkMessage user (js "Ich suche einen Rotwein zu einem Rinderfilet.") None;
    mkMessage bot
      (js "Eine ausgezeichnete Wahl! Zu einem Rinderfilet empfehle ich Ihnen kräftige Rotweine mit guter Tanninstruktur. Hier sind meine Empfehlungen:")
      (Some
         [ mkWine (js "Barolo DOCG 2018") (js "Piemont, Italien")
             (js "Nebbiolo") 94
             (js "Die Struktur dieses Rotweins harmoniert ausgezeichnet mit der Intensität des Fleisches. Die samtigen Tannine umschmeicheln die reichhaltigen Aromen des Gerichts.")
             (js "€78");
           mkWine (js "Châteauneuf-du-Pape 2019") (js "Rhône, Frankreich")
             (js "Grenache, Syrah") 92
             (js "Die Fülle des Weins steht im perfekten Gleichgewicht mit der Aromatik Ihrer Speise. Dabei stehen Wein und Speise in perfekter Balance zueinander.")
             (js "€52") ]) ].

(** The three [useState] initial values; no timer is pending at mount. *)
Definition initialSession : Session :=
  mkSession chat (js "") seedMessages 0 [].

(** *** State setters *)

Definition setActiveTab (t : Tab) (s : Session) : Session :=
  mkSession t (inputValue s) (messages s) (now s) (timers s).

Definition setInputValue (v : jsstring) (s : Session) : Session :=
  mkSession (activeTab s) v (messages s) (now s) (timers s).

Definition setMessages (ms : list Message) (s : Session) : Session :=
  mkSession (activeTab s) (inputValue s) ms (now s) (timers s).

(** [setTimeout(cb, delay)]: the callback is queued behind the timers
    already pending and becomes due [delay] milliseconds from now. *)
Definition setTimeout (captured : list Message) (delay : N) (s : Session)
  : Session :=
  mkSession (activeTab s) (inputValue s) (messages s) (now s)
    (timers s ++ [mkTimer (now s + delay) captured]).

(** *** [handleSend] *)

Definition botReply : Message :=
  mkMessage bot
    (js "Vielen Dank für Ihre Anfrage. Ich analysiere gerade die besten Optionen für Sie...")
    None.

(** The body of the arrow function passed to [setTimeout]. *)
Definition timerCallback (t : Timer) (s : Session) : Session :=
  setMessages (newMessages t ++ [botReply]) s.

(** [handleSend] reads [inputValue] and [messages] of the render it was
    created in, which is the state current when the event is dispatched. *)
Definition handleSend (s : Session) : Session :=
  if negb (truthy (trim (inputValue s))) then s
  else
    let newMessages := messages s ++ [mkMessage user (inputValue s) None] in
    setTimeout newMessages 1000
      (setInputValue (js "") (setMessages newMessages s)).

(** [handleKeyPress] of [ChatView], with [onSend = handleSend]. *)
Definition handleKeyPress (key : jsstring) (s : Session) : Session :=
  if JsString.eqb key (js "Enter") && truthy (trim (inputValue s))
  then handleSend s
  else s.

(** *** The passage of time

    [elapse d] advances the clock by [d] milliseconds and runs, in queue
    order, the callbacks that have become due. *)
Definition isDue (at_ : N) (t : Timer) : bool := due t <=? at_.

Definition runCallbacks (ts : list Timer) (s : Session) : Session :=
  fold_left (fun st t => timerCallback t st) ts s.

Definition elapse (d : N) (s : Session) : Session :=
  let at_ := now s + d in
  runCallbacks (filter (isDue at_) (timers s))
    (mkSession (activeTab s) (inputValue s) (messages s) at_
       (filter (fun t => negb (isDue at_ t)) (timers s))).

(** *** Events *)

Inductive Event : Type :=
| SelectTab (t : Tab)          (* click on a tab button *)
| SetDraft (v : jsstring)      (* change of the input field *)
| KeyPress (key : jsstring)    (* key press in the input field *)
| Send                         (* click on the send button *)
| Elapse (d : N).              (* time passes *)

Definition step (e : Event) (s : Session) : Session :=
  match e with
  | SelectTab t => setActiveTab t s
  | SetDraft v => setInputValue v s
  | KeyPress k => handleKeyPress k s
  | Send => handleSend s
  | Elapse d => elapse d s
  end.

Definition run (es : list Event) (s : Session) : Session :=
  fold_left (fun st e => step e st) es s.

(** The input field and the send button exist only while [ChatView] is
    mounted, that is while the chat tab is active. *)
Definition enabled (e : Event) (s : Session) : bool :=
  match e with
  | SelectTab _ | Elapse _ => true
  | SetDraft _ | KeyPress _ | Send => Tab_eqb (activeTab s) chat
  end.

Inductive reachable : Session -> Prop :=
| reachable_initial : reachable initialSession
| reachable_step e s :
    reachable s -> enabled e s = true -> reachable (step e s).

(** Events that never run the body of [handleSend]. *)
Definition sendsNothing (e : Event) : bool :=
  match e with
  | SelectTab _ | SetDraft _ | Elapse _ => true
  | KeyPress k => negb (JsString.eqb k (js "Enter"))
  | Send => false
  end.

Definition duration (e : Event) : N :=
  match e with
  | Elapse d => d
  | _ => 0
  end.

Definition elapsed (es : list Event) : N :=
  fold_right (fun e acc => duration e + acc) 0 es.

(** ** The view tree

    What the components return.  A child position holds an element, a text
    or a number, or [Nothing] where a [cond && <X/>] expression evaluates to
    [false] or [undefined]; arrays produced by [map] are spliced into the
    children.  React keys, the [ref] of the chat container and the effect
    that scrolls it to the bottom are not part of the tree. *)

Inductive Handler : Type :=
| Call_setActiveTab (t : Tab)   (* () => setActiveTab(tab.id) *)
| Call_onSend                   (* onSend *)
| Call_setInputValue            (* (e) => setInputValue(e.target.value) *)
| Call_handleKeyPress.          (* handleKeyPress *)

Inductive JsxProp : Type :=
| Attribute (key : string) (value : jsstring)
| Listener (key : string) (h : Handler).

Inductive VNode : Type :=
| Element (tag : string) (props : list JsxProp) (children : list VNode)
| Fragment (children : list VNode)
| Text (s : jsstring)
| Number (n : N)
| Nothing.

Definition className (v : string) : JsxProp := Attribute "className" (js v).

(** [cond && node] *)
Definition jsxAnd (cond : bool) (node : VNode) : VNode :=
  if cond then node else Nothing.

(** What React puts in the document: [false] and [undefined] children are
    dropped. *)
Definition isRendered (n : VNode) : bool :=
  match n with
  | Nothing => false
  | _ => true
  end.

Definition svg (d : string) : VNode :=
  Element "svg"
    [Attribute "viewBox" (js "0 0 24 24");
     Attribute "xmlns" (js "http://www.w3.org/2000/svg")]
    [Element "path" [Attribute "d" (js d)] []].

Definition WineGlassIcon : VNode :=
  svg "M6 2h12v7c0 3.31-2.69 6-6 6s-6-2.69-6-6V2zm6 11c2.21 0 4-1.79 4-4V4H8v5c0 2.21 1.79 4 4 4zm-1 3.93V20H8v2h8v-2h-3v-3.07c3.39-.49 6-3.39 6-6.93V0H5v9c0 3.54 2.61 6.44 6 6.93z".

Definition ArrowIcon : VNode :=
  svg "M2.01 21L23 12 2.01 3 2 10l15 2-15 2z".

Definition PlusIcon : VNode :=
  svg "M19 13h-6v6h-2v-6H5v-2h6V5h2v6h6v2z".

Definition WineCard (wine : Wine) : VNode :=
  Element "div" [className "wine-card"]
    [ Element "div" [className "wine-card-header"]
        [ Element "span" [className "wine-name"] [Text (name wine)];
          Element "span" [className "wine-badge"]
            [Number (points wine); Text (js " Pkt")] ];
      Element "div" [className "wine-meta"]
        [Text (region wine); Text (js " · "); Text (grape wine)];
      Element "div" [className "wine-description"]
        [Text (description wine)];
      Element "div" [className "wine-footer"]
        [ Element "span" [className "wine-price"] [Text (price wine)];
          Element "button" [className "wine-button"]
            [Text (js "Mehr Details")] ] ].

(** [message.wines && <div className="wine-cards">...</div>]: an absent
    property renders nothing, an array (even an empty one) is truthy. *)
Definition wineCards (ws : option (list Wine)) : VNode :=
  match ws with
  | None => Nothing
  | Some l => Element "div" [className "wine-cards"] (map WineCard l)
  end.

(** The [Message] component (the name [Message] is taken by the record of
    its argument). *)
Definition MessageView (message : Message) : VNode :=
  Element "div"
    [Attribute "className" (js "message " ++ Sender_name (sender message))]
    [ jsxAnd (Sender_eqb (sender message) bot)
        (Element "div" [className "message-label"] [Text (js "Sommelier")]);
      Element "div" [className "message-bubble"] [Text (text message)];
      wineCards (wines message) ].

Record QuickAction : Type := mkQuickAction {
  qa_icon : jsstring;
  qa_label : jsstring
}.

Definition quickActions : list QuickAction :=
  [ mkQuickAction (js "🍷") (js "Rotwein");
    mkQuickAction (js "🥂") (js "Champagner");
    mkQuickAction (js "🍽️") (js "Speisebegleitung");
    mkQuickAction (js "📚") (js "Weinwissen") ].

Definition ChatView (messages : list Message) (inputValue : jsstring) : VNode :=
  Fragment
    [ Element "div" [className "chat-container"] (map MessageView messages);
      Element "div" [className "input-area"]
        [ Element "div" [className "input-container"]
            [ Element "input"
                [ Attribute "type" (js "text");
                  className "input-field";
                  Attribute "placeholder" (js "Fragen Sie Ihren Sommelier...");
                  Attribute "value" inputValue;
                  Listener "onChange" Call_setInputValue;
                  Listener "onKeyPress" Call_handleKeyPress ]
                [];
              Element "button"
                [className "send-button"; Listener "onClick" Call_onSend]
                [ArrowIcon] ] ];
      Element "div" [className "quick-actions"]
        (map (fun action =>
                Element "button" [className "quick-chip"]
                  [Text (qa_icon action); Text (js " ");
                   Text (qa_label action)])
           quickActions) ].

Record TasteItem : Type := mkTaste { taste_label : jsstring; value : N }.

Definition tasteProfile : list TasteItem :=
  [ mkTaste (js "Süße") 25; mkTaste (js "Säure") 70;
    mkTaste (js "Tannin") 60; mkTaste (js "Körper") 55;
    mkTaste (js "Alkohol") 45 ].

Definition preferences : list jsstring :=
  [ js "Bordeaux"; js "Burgund"; js "Bio-Weine"; js "unter 50€";
    js "Barrique" ].

Definition ProfileView : VNode :=
  Element "div" [className "profile-container"]
    [ Element "div" [className "profile-section"]
        (Element "h3" [className "profile-section-title"]
           [Text (js "Geschmacksprofil")]
         :: map (fun item =>
                   Element "div" [className "taste-item"]
                     [ Element "div" [className "taste-label"]
                         [ Element "span" [] [Text (taste_label item)];
                           Element "span" []
                             [Number (value item); Text (js "%")] ];
                       Element "div" [className "taste-bar"]
                         [ Element "div"
                             [ className "taste-fill";
                               Attribute "style.width"
                                 (ofNumber (value item) ++ js "%") ]
                             [] ] ])
              tasteProfile);
      Element "div" [className "profile-section"]
        [ Element "h3" [className "profile-section-title"]
            [Text (js "Präferenzen")];
          Element "div" [className "preference-tags"]
            (map (fun pref =>
                    Element "span" [className "preference-tag"] [Text pref])
               preferences) ] ].

(** The [slots] array of [CellarView]. *)
Definition slots : list Slot :=
  [ mkSlot true; mkSlot true; mkSlot false;
    mkSlot true; mkSlot false; mkSlot true;
    mkSlot false; mkSlot true; mkSlot false ].

(** [slots.filter(s => s.filled).length], as a function of the array. *)
Definition filledCount (ss : list Slot) : nat :=
  List.length (filter (fun s => filled s) ss).

(** [slots.filter(s => !s.filled).length] *)
Definition emptyCount (ss : list Slot) : nat :=
  List.length (filter (fun s => negb (filled s)) ss).

Definition CellarView : VNode :=
  Element "div" [className "cellar-container"]
    [ Element "div" [className "profile-section"]
        [ Element "h3" [className "profile-section-title"]
            [Text (js "Mein Weinkeller")];
          Element "div" [className "cellar-grid"]
            (map (fun slot =>
                    Element "div"
                      [Attribute "className"
                         (js "cellar-slot "
                            ++ (if filled slot then js "filled"
                                else js "empty"))]
                      [if filled slot then WineGlassIcon else PlusIcon])
               slots);
          Element "div" [className "cellar-summary"]
            [ Number (N.of_nat (filledCount slots));
              Text (js " Flaschen im Keller · ");
              Number (N.of_nat (emptyCount slots));
              Text (js " Plätze frei") ] ] ].

(** The three conditional children that close the [App] element. *)
Definition views (activeTab : Tab) (inputValue : jsstring)
  (messages : list Message) : list VNode :=
  [ jsxAnd (Tab_eqb activeTab chat) (ChatView messages inputValue);
    jsxAnd (Tab_eqb activeTab profile) ProfileView;
    jsxAnd (Tab_eqb activeTab cellar) CellarView ].

Definition App (activeTab : Tab) (inputValue : jsstring)
  (messages : list Message) : VNode :=
  Element "div" [className "app"]
    ([ Element "header" [className "header"]
         [ Element "div" [className "header-icon"] [WineGlassIcon];
           Element "h1" [className "header-title"] [Text (js "SOMMELIER")];
           Element "p" [className "header-subtitle"]
             [Text (js "Ihr Weinberater")] ];
       Element "nav" [className "tabs"]
         (map (fun tab =>
                 Element "button"
                   [ Attribute "className"
                       (js "tab "
                          ++ (if Tab_eqb activeTab (id tab) then js "active"
                              else js ""));
                     Listener "onClick" (Call_setActiveTab (id tab)) ]
                   [Text (label tab)])
            tabs) ]
     ++ views activeTab inputValue messages).

(** The tree on screen for a session: [App] applied to its React state. *)
Definition render (s : Session) : VNode :=
  App (activeTab s) (inputValue s) (messages s).

(** The view body a tab stands for. *)
Definition viewBody (s : Session) : VNode :=
  match activeTab s with
  | chat => ChatView (messages s) (inputValue s)
  | profile => ProfileView
  | cellar => CellarView
  end.

(** The state change a listener of the tree performs when it fires; the
    event argument carries the field value or the key. *)
Definition dispatch (h : Handler) (arg : jsstring) (s : Session) : Session :=
  match h with
  | Call_setActiveTab t => setActiveTab t s
  | Call_onSend => handleSend s
  | Call_setInputValue => setInputValue arg s
  | Call_handleKeyPress => handleKeyPress arg s
  end.

(** ** Vocabulary of the properties *)

Definition isPrefix {A : Type} (l1 l2 : list A) : Prop :=
  exists k, l2 = l1 ++ k.

Definition countSender (who : Sender) (ms : list Message) : nat :=
  List.length (filter (fun m => Sender_eqb (sender m) who) ms).

Definition userMessage (draft : jsstring) : Message :=
  mkMessage user draft None.

(** Two messages typed and sent 100 ms apart, on the seed conversation. *)
Definition rapidSends : list Event :=
  [ SetDraft (js "Rotwein"); Send; Elapse 100;
    SetDraft (js "Champagner"); Send ].

(** Every pending timer lies in the future, at most one delay away. *)
Definition timersInWindow (s : Session) : Prop :=
  Forall (fun t => now s < due t /\ due t <= now s + 1000) (timers s).

Fixpoint sortedByDue (ts : list Timer) : Prop :=
  match ts with
  | [] => True
  | t :: r => Forall (fun u => due t <= due u) r /\ sortedByDue r
  end.

(** A session in which timer [t] is still pending, behind timers that
    are due no later than it. *)
Definition awaiting (t : Timer) (s : Session) : Prop :=
  now s < due t /\
  exists ts, timers s = ts ++ [t] /\ Forall (fun u => due u <= due t) ts.

(** A session in which timer [t] was the last one to fire. *)
Definition replied (t : Timer) (s : Session) : Prop :=
  timers s = [] /\ messages s = newMessages t ++ [botReply].

(** Every event of the trace can be raised in the session it meets. *)
Fixpoint enabledAlong (es : list Event) (s : Session) : bool :=
  match es with
  | [] => true
  | e :: r => enabled e s && enabledAlong r (step e s)
  end.

(** *** Shape of a conversation *)

Definition sentByUser (m : Message) : bool := Sender_eqb (sender m) user.

(** A message that the handlers can add: the simulated reply, or a user
    message without wines whose text does not trim to the empty string. *)
Definition addedByHandlers (m : Message) : Prop :=
  m = botReply \/
  (sender m = user /\ wines m = None /\ trim (text m) <> []).

(** Every bot message of the list stands directly behind a user message;
    [afterUser] tells whether the list itself does. *)
Fixpoint repliesFollowUser (afterUser : bool) (ms : list Message) : bool :=
  match ms with
  | [] => true
  | m :: r => (sentByUser m || afterUser) && repliesFollowUser (sentByUser m) r
  end.

(** Whether the last message is a user message ([afterUser] for no message). *)
Fixpoint endsWithUser (afterUser : bool) (ms : list Message) : bool :=
  match ms with
  | [] => afterUser
  | m :: r => endsWithUser (sentByUser m) r
  end.

(** A list made of the seed conversation and messages added by the handlers. *)
Definition wellShaped (ms : list Message) : Prop :=
  exists tail,
    ms = seedMessages ++ tail /\
    Forall addedByHandlers tail /\
    repliesFollowUser false tail = true.

(** What a pending timer has captured: a well-shaped list that ends with
    the user message of its send. *)
Definition capturedShape (t : Timer) : Prop :=
  exists tail,
    newMessages t = seedMessages ++ tail /\
    Forall addedByHandlers tail /\
    repliesFollowUser false tail = true /\
    endsWithUser false tail = true.

(** *** Sends that wait for the reply *)

Definition noTimerPending (s : Session) : bool :=
  match timers s with
  | [] => true
  | _ :: _ => false
  end.

(** Along the trace, every event that may send meets a session without a
    pending timer. *)
Fixpoint patient (es : list Event) (s : Session) : bool :=
  match es with
  | [] => true
  | e :: r => (sendsNothing e || noTimerPending s) && patient r (step e s)
  end.

(** At most one timer is pending, and it captured the current list. *)
Definition inSync (s : Session) : Prop :=
  timers s = [] \/ exists t, timers s = [t] /\ newMessages t = messages s.

(** *** Queries on a view tree *)

(** The elements of a tree, in document order. *)
Fixpoint elements (n : VNode) : list VNode :=
  match n with
  | Element _ _ children => n :: flat_map elements children
  | Fragment children => flat_map elements children
  | Text _ | Number _ | Nothing => []
  end.

Definition propsOf (n : VNode) : list JsxProp :=
  match n with
  | Element _ props _ => props
  | _ => []
  end.

Definition tagOf (n : VNode) : string :=
  match n with
  | Element tag _ _ => tag
  | _ => ""
  end.

(** The listeners among the props, each with its event key. *)
Definition handlersOf (props : list JsxProp) : list (string * Handler) :=
  flat_map (fun p => match p with
                     | Listener k h => [(k, h)]
                     | Attribute _ _ => []
                     end) props.

Definition valuesOf (key : string) (props : list JsxProp) : list jsstring :=
  flat_map (fun p => match p with
                     | Attribute k v => if String.eqb k key then [v] else []
                     | Listener _ _ => []
                     end) props.

(** Where an element stands out in the tree: its tag and its class names. *)
Definition placeOf (n : VNode) : string * list jsstring :=
  (tagOf n, valuesOf "className" (propsOf n)).

(** The listeners attached anywhere in the tree, in document order: the
    element that carries the listener, the event key and the handler. *)
Definition listeners (n : VNode)
  : list (string * list jsstring * string * Handler) :=
  flat_map (fun e => map (fun kh => (placeOf e, fst kh, snd kh))
                       (handlersOf (propsOf e)))
    (elements n).

(** The occurrences of the attribute [key] in the tree, in document order:
    the element that carries it and its value. *)
Definition attributeValues (key : string) (n : VNode)
  : list (string * list jsstring * jsstring) :=
  flat_map (fun e => map (fun v => (placeOf e, v)) (valuesOf key (propsOf e)))
    (elements n).

(** The tab buttons of a tree: the [button] elements with an [onClick]
    listener that selects a tab, each with that tab, the class names of the
    button and its children. *)
Definition tabButtons (n : VNode) : list (Tab * list jsstring * list VNode) :=
  flat_map
    (fun e =>
       match e with
       | Element tag props children =>
           if String.eqb tag "button" then
             flat_map (fun kh =>
                         match kh with
                         | (k, Call_setActiveTab t) =>
                             if String.eqb k "onClick"
                             then [(t, valuesOf "className" props, children)]
                             else []
                         | _ => []
                         end)
               (handlersOf props)
           else []
       | _ => []
       end)
    (elements n).

(** The texts and numbers of a tree, in document order, each with the class
    names of the element it is a child of. *)
Fixpoint leaves (n : VNode) : list (list jsstring * VNode) :=
  match n with
  | Element _ props children =>
      flat_map (fun c => match c with
                         | Text _ | Number _ =>
                             [(valuesOf "className" props, c)]
                         | _ => leaves c
                         end) children
  | Fragment children =>
      flat_map (fun c => match c with
                         | Text _ | Number _ => [([], c)]
                         | _ => leaves c
                         end) children
  | Text _ | Number _ | Nothing => []
  end.

(** What a wine card shows, and in which element of the card. *)
Definition wineLeaves (w : Wine) : list (list jsstring * VNode) :=
  [ ([js "wine-name"], Text (name w));
    ([js "wine-badge"], Number (points w));
    ([js "wine-badge"], Text (js " Pkt"));
    ([js "wine-meta"], Text (region w));
    ([js "wine-meta"], Text (js " · "));
    ([js "wine-meta"], Text (grape w));
    ([js "wine-description"], Text (description w));
    ([js "wine-price"], Text (price w));
    ([js "wine-button"], Text (js "Mehr Details")) ].

(** What a message shows: the label of the sommelier on a bot message, the
    text, and the cards of its wines when it has any. *)
Definition messageLeaves (m : Message) : list (list jsstring * VNode) :=
  (if Sender_eqb (sender m) bot
   then [([js "message-label"], Text (js "Sommelier"))]
   else [])
  ++ [([js "message-bubble"], Text (text m))]
  ++ flat_map wineLeaves (match wines m with
                          | Some ws => ws
                          | None => []
                          end).

(** An element without listener and without [value] attribute. *)
Definition plain (e : VNode) : Prop :=
  handlersOf (propsOf e) = [] /\ valuesOf "value" (propsOf e) = [].

(** * Properties *)

(** ** Strings *)

Example js_ascii : js "Enter" = [69; 110; 116; 101; 114].
Proof. reflexivity. Qed.

Example js_euro : js "€78" = [0x20AC; 55; 56].
Proof. reflexivity. Qed.

Example js_eszett : js "Weißwein" = [87; 101; 105; 0xDF; 119; 101; 105; 110].
Proof. reflexivity. Qed.

Example js_surrogates : js "🍷" = [0xD83C; 0xDF77].
Proof. reflexivity. Qed.

Example trim_sample : trim (js "  Barolo 2018 	") = js "Barolo 2018".
Proof. reflexivity. Qed.

Example trim_blank : trim (js "   ") = [].
Proof. reflexivity. Qed.

Example ofNumber_sample : ofNumber 70 = js "70".
Proof. reflexivity. Qed.

Lemma truthy_false (v : jsstring) : truthy v = false <-> v = [].
Proof. destruct v; simpl; split; congruence. Qed.

(** ** Setters and handlers *)

Lemma session_eta (s : Session) :
  mkSession (activeTab s) (inputValue s) (messages s) (now s) (timers s) = s.
Proof. destruct s; reflexivity. Qed.

Lemma handleSend_blank (s : Session) :
  truthy (trim (inputValue s)) = false -> handleSend s = s.
Proof. intros H. unfold handleSend. rewrite H. reflexivity. Qed.

Lemma handleSend_sent (s : Session) :
  truthy (trim (inputValue s)) = true ->
  handleSend s =
  mkSession (activeTab s) (js "")
    (messages s ++ [userMessage (inputValue s)]) (now s)
    (timers s ++
       [mkTimer (now s + 1000) (messages s ++ [userMessage (inputValue s)])]).
Proof. intros H. unfold handleSend. rewrite H. reflexivity. Qed.

Lemma handleKeyPress_cases (k : jsstring) (s : Session) :
  handleKeyPress k s = s \/ handleKeyPress k s = handleSend s.
Proof.
  unfold handleKeyPress.
  destruct (JsString.eqb k (js "Enter") && truthy (trim (inputValue s)));
    [right | left]; reflexivity.
Qed.

Lemma handleKeyPress_other_key (k : jsstring) (s : Session) :
  JsString.eqb k (js "Enter") = false -> handleKeyPress k s = s.
Proof. intros H. unfold handleKeyPress. rewrite H. reflexivity. Qed.

Example enter_key_sends :
  messages (run [SetDraft (js "Rotwein"); KeyPress (js "Enter")] initialSession)
  = seedMessages ++ [userMessage (js "Rotwein")] /\
  run [SetDraft (js "Rotwein"); KeyPress (js "a")] initialSession
  = setInputValue (js "Rotwein") initialSession.
Proof. split; reflexivity. Qed.

Lemma run_cons (e : Event) (es : list Event) (s : Session) :
  run (e :: es) s = run es (step e s).
Proof. reflexivity. Qed.

(** ** Seed state *)

(** C6: at mount the message list holds the three seed messages, sent by
    bot, user and bot in that order; the third carries exactly two wines;
    the chat tab is active and the draft is the empty string. *)
Theorem seed_state :
  List.length (messages initialSession) = 3%nat /\
  map sender (messages initialSession) = [bot; user; bot] /\
  (exists m w1 w2,
      nth_error (messages initialSession) 2 = Some m /\
      wines m = Some [w1; w2]) /\
  map wines (firstn 2 (messages initialSession)) = [None; None] /\
  activeTab initialSession = chat /\
  inputValue initialSession = [] /\
  timers initialSession = [].
Proof.
  repeat split; try reflexivity.
  eexists; eexists; eexists; split; reflexivity.
Qed.

(** ** Cellar summary *)

Lemma filled_empty_partition (ss : list Slot) :
  (filledCount ss + emptyCount ss = List.length ss)%nat.
Proof.
  unfold filledCount, emptyCount.
  induction ss as [|[b] ss IH]; simpl; [reflexivity|].
  destruct b; simpl; lia.
Qed.

(** C7: the two counts shown by [CellarView] depend on the slot list only:
    [filledCount] is the number of slots whose [filled] is true, and
    [emptyCount] is the total minus [filledCount], so the two always add up
    to the number of slots; on the nine slots of the source they are 5
    and 4. *)
Theorem cellar_summary_counts :
  (forall ss : list Slot,
      filledCount ss = count_occ bool_dec (map filled ss) true /\
      emptyCount ss = (List.length ss - filledCount ss)%nat /\
      (filledCount ss + emptyCount ss = List.length ss)%nat) /\
  map filled slots =
    [true; true; false; true; false; true; false; true; false] /\
  filledCount slots = 5%nat /\
  emptyCount slots = 4%nat.
Proof.
  split; [|repeat split; reflexivity].
  intros ss. pose proof (filled_empty_partition ss) as P.
  repeat split; [|lia|exact P].
  unfold filledCount. clear P.
  induction ss as [|[b] ss IH]; simpl; [reflexivity|].
  destruct b; simpl; rewrite IH; reflexivity.
Qed.

(** ** Tab selection *)

Lemma last_cons_default {A : Type} (l : list A) (a d d' : A) :
  last (a :: l) d = last (a :: l) d'.
Proof.
  revert a. induction l as [|b l IH]; intros a; [reflexivity|].
  change (last (b :: l) d = last (b :: l) d'). apply IH.
Qed.

Lemma setActiveTab_run (ts : list Tab) (s : Session) :
  activeTab (run (map SelectTab ts) s) = last ts (activeTab s).
Proof.
  revert s. induction ts as [|t ts IH]; intros s; [reflexivity|].
  simpl map. rewrite run_cons, IH. simpl step.
  destruct ts as [|t' ts]; [reflexivity|].
  change (last (t :: t' :: ts) (activeTab s)) with (last (t' :: ts) (activeTab s)).
  apply last_cons_default.
Qed.

Lemma selectTabs_frame (ts : list Tab) (s : Session) :
  inputValue (run (map SelectTab ts) s) = inputValue s /\
  messages (run (map SelectTab ts) s) = messages s /\
  timers (run (map SelectTab ts) s) = timers s.
Proof.
  revert s. induction ts as [|t ts IH]; intros s; [repeat split|].
  simpl map. rewrite run_cons. apply (IH (step (SelectTab t) s)).
Qed.

(** C8: after any sequence of tab selections the active tab is the last
    one selected (and the tab active before, when the sequence is empty);
    selecting the tab that is already active changes nothing, and selecting
    a tab twice is the same as selecting it once.  A selection touches no
    other part of the session. *)
Theorem selectTab_last_wins :
  (forall (ts : list Tab) (t : Tab) (s : Session),
      activeTab (run (map SelectTab (ts ++ [t])) s) = t) /\
  (forall (ts : list Tab) (s : Session),
      activeTab (run (map SelectTab ts) s) = last ts (activeTab s)) /\
  (forall s : Session, step (SelectTab (activeTab s)) s = s) /\
  (forall (t : Tab) (s : Session),
      step (SelectTab t) (step (SelectTab t) s) = step (SelectTab t) s) /\
  (forall (ts : list Tab) (s : Session),
      inputValue (run (map SelectTab ts) s) = inputValue s /\
      messages (run (map SelectTab ts) s) = messages s /\
      timers (run (map SelectTab ts) s) = timers s).
Proof.
  split; [|split; [|split; [|split]]].
  - intros ts t s. rewrite setActiveTab_run. apply last_last.
  - apply setActiveTab_run.
  - intros s. apply session_eta.
  - reflexivity.
  - apply selectTabs_frame.
Qed.

(** ** Sending a draft *)

Lemma truthy_true (v : jsstring) : truthy v = true <-> v <> [].
Proof. destruct v; simpl; split; congruence. Qed.

(** C4: when the draft trims to the empty string, [handleSend] returns the
    session it was given: no message is appended, the draft stays as it
    is, and no timer is scheduled.  The Enter key on such a draft does
    nothing either. *)
Theorem handleSend_blank_noop (s : Session) :
  trim (inputValue s) = [] ->
  handleSend s = s /\
  messages (handleSend s) = messages s /\
  inputValue (handleSend s) = inputValue s /\
  timers (handleSend s) = timers s /\
  handleKeyPress (js "Enter") s = s.
Proof.
  intros H. apply truthy_false in H.
  assert (E : handleSend s = s) by (apply handleSend_blank; exact H).
  rewrite E. repeat split.
  unfold handleKeyPress. rewrite H, andb_false_r. reflexivity.
Qed.

Lemma handleSend_blank_noop_witness :
  trim (inputValue (setInputValue (js "   ") initialSession)) = [] /\
  handleSend (setInputValue (js "   ") initialSession)
  = setInputValue (js "   ") initialSession.
Proof.
  split; [reflexivity|].
  apply (handleSend_blank_noop (setInputValue (js "   ") initialSession)).
  reflexivity.
Defined.

(** C1, as amended: when the draft does not trim to the empty string,
    [handleSend] appends exactly one message, sent by the user, whose text
    is the draft exactly as typed (surrounding whitespace included), and
    sets the draft to the empty string. *)
Theorem handleSend_appends_draft (s : Session) :
  trim (inputValue s) <> [] ->
  messages (handleSend s) = messages s ++ [mkMessage user (inputValue s) None] /\
  inputValue (handleSend s) = js "".
Proof.
  intros H. apply truthy_true in H.
  rewrite (handleSend_sent s H). split; reflexivity.
Qed.

Lemma handleSend_appends_draft_witness :
  let s := setInputValue (js "Empfehlen Sie mir einen Weißwein")
             initialSession in
  trim (inputValue s) <> [] /\
  messages (handleSend s)
  = messages s ++ [mkMessage user (inputValue s) None] /\
  inputValue (handleSend s) = js "".
Proof.
  intros s. split; [vm_compute; discriminate|].
  apply (handleSend_appends_draft s).
  vm_compute; discriminate.
Defined.

(** C1, as stated, fails: the draft ["  Barolo "] passes the check, and the
    appended message carries the draft with its blanks, not the trimmed
    draft. *)
Lemma handleSend_keeps_whitespace :
  let s := setInputValue (js "  Barolo ") initialSession in
  trim (inputValue s) = js "Barolo" /\
  trim (inputValue s) <> [] /\
  messages (handleSend s)
  = messages s ++ [mkMessage user (js "  Barolo ") None] /\
  ~ (exists m,
        messages (handleSend s) = messages s ++ [m] /\
        sender m = user /\ text m = trim (inputValue s)).
Proof.
  vm_compute. repeat split; try discriminate.
  intros [m [E [_ T]]].
  injection E as E. subst m. discriminate T.
Qed.

(** ** Timers *)

Lemma timerCallback_messages (t : Timer) (s : Session) :
  messages (timerCallback t s) = newMessages t ++ [botReply].
Proof. reflexivity. Qed.

Lemma runCallbacks_snoc (ts : list Timer) (t : Timer) (s : Session) :
  runCallbacks (ts ++ [t]) s = timerCallback t (runCallbacks ts s).
Proof. unfold runCallbacks. rewrite fold_left_app. reflexivity. Qed.

Lemma runCallbacks_frame (ts : list Timer) (s : Session) :
  activeTab (runCallbacks ts s) = activeTab s /\
  inputValue (runCallbacks ts s) = inputValue s /\
  now (runCallbacks ts s) = now s /\
  timers (runCallbacks ts s) = timers s.
Proof.
  revert s. induction ts as [|t ts IH]; intros s; [repeat split|].
  change (runCallbacks (t :: ts) s) with (runCallbacks ts (timerCallback t s)).
  destruct (IH (timerCallback t s)) as (A & B & C & D).
  rewrite A, B, C, D. repeat split.
Qed.

Lemma elapse_now (d : N) (s : Session) : now (elapse d s) = now s + d.
Proof.
  unfold elapse.
  match goal with
  | |- now (runCallbacks ?ts ?st) = _ =>
      destruct (runCallbacks_frame ts st) as (_ & _ & C & _); rewrite C
  end.
  reflexivity.
Qed.

Lemma elapse_timers (d : N) (s : Session) :
  timers (elapse d s)
  = filter (fun t => negb (isDue (now s + d) t)) (timers s).
Proof.
  unfold elapse.
  match goal with
  | |- timers (runCallbacks ?ts ?st) = _ =>
      destruct (runCallbacks_frame ts st) as (_ & _ & _ & D); rewrite D
  end.
  reflexivity.
Qed.

Lemma filter_all {A : Type} (f : A -> bool) (l : list A) :
  (forall x, In x l -> f x = true) -> filter f l = l.
Proof.
  induction l as [|a l IH]; intros H; [reflexivity|].
  simpl. rewrite (H a (or_introl eq_refl)). f_equal.
  apply IH. intros x X. apply H. right. exact X.
Qed.

Lemma filter_none {A : Type} (f : A -> bool) (l : list A) :
  (forall x, In x l -> f x = false) -> filter f l = [].
Proof.
  induction l as [|a l IH]; intros H; [reflexivity|].
  simpl. rewrite (H a (or_introl eq_refl)).
  apply IH. intros x X. apply H. right. exact X.
Qed.

Lemma elapse_none_due (d : N) (s : Session) :
  Forall (fun t => now s + d < due t) (timers s) ->
  messages (elapse d s) = messages s /\ timers (elapse d s) = timers s.
Proof.
  intros H. rewrite elapse_timers. unfold elapse.
  assert (F : forall t, In t (timers s) -> isDue (now s + d) t = false).
  { intros t I. rewrite Forall_forall in H. specialize (H t I).
    unfold isDue. apply N.leb_gt. exact H. }
  rewrite (filter_none (isDue (now s + d)) (timers s) F).
  rewrite filter_all; [split; reflexivity|].
  intros t I. rewrite (F t I). reflexivity.
Qed.

Lemma elapse_all_due (d : N) (s : Session) (ts : list Timer) (t : Timer) :
  timers s = ts ++ [t] ->
  Forall (fun u => due u <= now s + d) (timers s) ->
  messages (elapse d s) = newMessages t ++ [botReply] /\
  timers (elapse d s) = [].
Proof.
  intros E H. rewrite elapse_timers. unfold elapse.
  assert (F : forall u, In u (timers s) -> isDue (now s + d) u = true).
  { intros u I. rewrite Forall_forall in H. specialize (H u I).
    unfold isDue. apply N.leb_le. exact H. }
  rewrite (filter_all (isDue (now s + d)) (timers s) F).
  rewrite filter_none; [|intros u I; rewrite (F u I); reflexivity].
  rewrite E, runCallbacks_snoc. split; reflexivity.
Qed.

(** *** Invariants of reachable sessions *)

Lemma sortedByDue_snoc (ts : list Timer) (t : Timer) :
  sortedByDue ts -> Forall (fun u => due u <= due t) ts ->
  sortedByDue (ts ++ [t]).
Proof.
  induction ts as [|u us IH]; intros S B; simpl.
  - split; [constructor | exact I].
  - destruct S as [S1 S2]. inversion B as [|? ? B1 B2]; subst. split.
    + apply Forall_app. split; [exact S1|]. constructor; [exact B1|constructor].
    + apply IH; assumption.
Qed.

Lemma sortedByDue_filter (f : Timer -> bool) (ts : list Timer) :
  sortedByDue ts -> sortedByDue (filter f ts).
Proof.
  induction ts as [|u us IH]; intros S; [exact I|].
  destruct S as [S1 S2]. simpl. destruct (f u); [|apply IH; exact S2].
  split; [|apply IH; exact S2].
  rewrite Forall_forall in *. intros v V. apply filter_In in V.
  apply S1. apply V.
Qed.

Lemma handleSend_invariants (s : Session) :
  timersInWindow s /\ sortedByDue (timers s) ->
  timersInWindow (handleSend s) /\ sortedByDue (timers (handleSend s)).
Proof.
  intros [W S]. destruct (truthy (trim (inputValue s))) eqn:T.
  - rewrite (handleSend_sent s T). unfold timersInWindow in *. simpl. split.
    + apply Forall_app. split; [exact W|].
      constructor; [simpl; lia | constructor].
    + apply sortedByDue_snoc; [exact S|].
      eapply Forall_impl; [|exact W]. simpl. intros u [_ U]. exact U.
  - rewrite (handleSend_blank s T). split; assumption.
Qed.

Lemma step_invariants (e : Event) (s : Session) :
  timersInWindow s /\ sortedByDue (timers s) ->
  timersInWindow (step e s) /\ sortedByDue (timers (step e s)).
Proof.
  intros [W S]. destruct e as [t|v|k| |d]; simpl step.
  - split; assumption.
  - split; assumption.
  - destruct (handleKeyPress_cases k s) as [E|E]; rewrite E;
      [split; assumption | apply handleSend_invariants; split; assumption].
  - apply handleSend_invariants; split; assumption.
  - unfold timersInWindow. rewrite elapse_timers, elapse_now. split.
    + unfold timersInWindow in W. rewrite Forall_forall in *.
      intros t I. apply filter_In in I. destruct I as [I D].
      specialize (W t I). unfold isDue in D.
      apply negb_true_iff, N.leb_gt in D. lia.
    + apply sortedByDue_filter. exact S.
Qed.

(** In every reachable session the pending timers are queued in the order
    in which they become due, each due within the next 1000 ms; so running
    the due callbacks in queue order is running them in due order. *)
Lemma reachable_invariants (s : Session) :
  reachable s -> timersInWindow s /\ sortedByDue (timers s).
Proof.
  induction 1 as [|e s R IH En].
  - split; [constructor | exact I].
  - apply step_invariants. exact IH.
Qed.

(** *** From a send to its reply *)

Section AwaitedTimer.

Variable t : Timer.

Lemma awaiting_step (e : Event) (s : Session) :
  sendsNothing e = true -> awaiting t s ->
  now (step e s) = now s + duration e /\
  (awaiting t (step e s) \/ replied t (step e s)).
Proof.
  intros Q A. destruct e as [tab|v|k| |d]; simpl step; simpl duration.
  - split; [simpl; lia | left; exact A].
  - split; [simpl; lia | left; exact A].
  - simpl in Q. apply negb_true_iff in Q.
    rewrite (handleKeyPress_other_key k s Q).
    split; [lia | left; exact A].
  - discriminate Q.
  - split; [apply elapse_now|].
    destruct A as [L (ts & E & B)].
    destruct (N.ltb_spec (now s + d) (due t)) as [Lt|Ge].
    + left. unfold awaiting. rewrite elapse_now, elapse_timers.
      split; [exact Lt|].
      exists (filter (fun u => negb (isDue (now s + d) u)) ts). split.
      * rewrite E, filter_app. f_equal. simpl.
        unfold isDue. apply N.leb_gt in Lt. rewrite Lt. reflexivity.
      * rewrite Forall_forall in *. intros u U. apply filter_In in U.
        apply B. apply U.
    + right. unfold replied.
      destruct (elapse_all_due d s ts t E) as [M T].
      * rewrite E. apply Forall_app. split.
        -- eapply Forall_impl; [|exact B]. simpl. intros u U. lia.
        -- constructor; [exact Ge | constructor].
      * split; assumption.
Qed.

Lemma replied_step (e : Event) (s : Session) :
  sendsNothing e = true -> replied t s -> replied t (step e s).
Proof.
  intros Q [T M]. destruct e as [tab|v|k| |d]; simpl step.
  - split; assumption.
  - split; assumption.
  - simpl in Q. apply negb_true_iff in Q.
    rewrite (handleKeyPress_other_key k s Q). split; assumption.
  - discriminate Q.
  - destruct (elapse_none_due d s) as [M' T'].
    + rewrite T. constructor.
    + unfold replied. rewrite M', T'. split; assumption.
Qed.

Lemma replied_run (es : list Event) (s : Session) :
  forallb sendsNothing es = true -> replied t s -> replied t (run es s).
Proof.
  revert s. induction es as [|e es IH]; intros s Q R; [exact R|].
  simpl in Q. apply andb_true_iff in Q. destruct Q as [Q1 Q2].
  rewrite run_cons. apply IH; [exact Q2|]. apply replied_step; assumption.
Qed.

Lemma awaiting_run (es : list Event) (s : Session) :
  forallb sendsNothing es = true -> awaiting t s ->
  due t <= now s + elapsed es -> replied t (run es s).
Proof.
  revert s. induction es as [|e es IH]; intros s Q A D.
  - destruct A as [L _]. simpl in D. lia.
  - simpl in Q. apply andb_true_iff in Q. destruct Q as [Q1 Q2].
    rewrite run_cons.
    destruct (awaiting_step e s Q1 A) as [Nw [A'|R]].
    + apply IH; [exact Q2 | exact A' |].
      rewrite Nw. simpl in D. lia.
    + apply replied_run; assumption.
Qed.

End AwaitedTimer.

Lemma handleSend_awaiting (s : Session) :
  timersInWindow s -> truthy (trim (inputValue s)) = true ->
  awaiting (mkTimer (now s + 1000) (messages s ++ [userMessage (inputValue s)]))
    (handleSend s).
Proof.
  intros W T. rewrite (handleSend_sent s T). split; [simpl; lia|].
  exists (timers s). split; [reflexivity|].
  eapply Forall_impl; [|exact W]. simpl. intros u [_ U]. exact U.
Qed.

Lemma reply_after_delay (s : Session) (es : list Event) :
  timersInWindow s -> truthy (trim (inputValue s)) = true ->
  forallb sendsNothing es = true -> 1000 <= elapsed es ->
  messages (run es (handleSend s))
  = messages s ++ [userMessage (inputValue s); botReply] /\
  timers (run es (handleSend s)) = [].
Proof.
  intros W T Q D.
  pose proof (handleSend_awaiting s W T) as A.
  apply (awaiting_run _ es) in A; [|exact Q|].
  - destruct A as [A1 A2]. split; [|exact A1].
    rewrite A2. simpl newMessages. rewrite <- app_assoc. reflexivity.
  - rewrite (handleSend_sent s T). simpl. lia.
Qed.

Lemma elapsed_cons (e : Event) (es : list Event) :
  elapsed (e :: es) = duration e + elapsed es.
Proof. reflexivity. Qed.

Lemma reachable_run (es : list Event) (s : Session) :
  reachable s -> enabledAlong es s = true -> reachable (run es s).
Proof.
  revert s. induction es as [|e es IH]; intros s R E; [exact R|].
  simpl in E. apply andb_true_iff in E. destruct E as [E1 E2].
  rewrite run_cons. apply IH; [|exact E2].
  apply reachable_step; assumption.
Qed.

Lemma quiet_before_delay (s : Session) (es : list Event) :
  timers s = [] -> truthy (trim (inputValue s)) = true ->
  forallb sendsNothing es = true -> elapsed es < 1000 ->
  messages (run es (handleSend s)) = messages (handleSend s).
Proof.
  intros T0 T Q D.
  set (t := mkTimer (now s + 1000)
              (messages s ++ [userMessage (inputValue s)])).
  assert (J : forall es st,
             forallb sendsNothing es = true ->
             timers st = [t] -> now st + elapsed es < due t ->
             messages (run es st) = messages st).
  { clearbody t. clear.
    induction es as [|e es IH]; intros st Q E D; [reflexivity|].
    simpl in Q. apply andb_true_iff in Q. destruct Q as [Q1 Q2].
    rewrite run_cons. rewrite elapsed_cons in D.
    destruct e as [tab|v|k| |d]; simpl step; simpl duration in D.
    - rewrite IH; [reflexivity | exact Q2 | exact E | simpl; lia].
    - rewrite IH; [reflexivity | exact Q2 | exact E | simpl; lia].
    - simpl in Q1. apply negb_true_iff in Q1.
      rewrite (handleKeyPress_other_key k st Q1).
      apply IH; [exact Q2 | exact E | lia].
    - discriminate Q1.
    - destruct (elapse_none_due d st) as [M' T'].
      + rewrite E. constructor; [lia | constructor].
      + rewrite IH; [exact M' | exact Q2 | rewrite T'; exact E |].
        rewrite elapse_now. lia. }
  apply J; [exact Q | |].
  - rewrite (handleSend_sent s T). simpl. rewrite T0. reflexivity.
  - rewrite (handleSend_sent s T). simpl. lia.
Qed.

Lemma countSender_snoc (who : Sender) (ms : list Message) (m : Message) :
  countSender who (ms ++ [m])
  = ((if Sender_eqb (sender m) who then 1 else 0) + countSender who ms)%nat.
Proof.
  unfold countSender. rewrite filter_app, length_app. simpl.
  destruct (Sender_eqb (sender m) who); simpl; lia.
Qed.

(** C5: after a send that passes the check and is followed by no other
    send, once 1000 ms have gone by the message list is the list left by
    the send with exactly one more message, the bot reply; the reply has no
    wines and stands right behind the user message of that send.  If no
    older reply was pending, the list does not change before the 1000 ms
    are over. *)
Theorem reply_follows_user_message (s : Session) (es : list Event) :
  reachable s -> trim (inputValue s) <> [] ->
  forallb sendsNothing es = true -> 1000 <= elapsed es ->
  messages (run es (handleSend s)) = messages (handleSend s) ++ [botReply] /\
  countSender bot (messages (run es (handleSend s)))
  = S (countSender bot (messages (handleSend s))) /\
  sender botReply = bot /\ wines botReply = None /\
  nth_error (messages (run es (handleSend s))) (List.length (messages s))
  = Some (mkMessage user (inputValue s) None) /\
  nth_error (messages (run es (handleSend s))) (S (List.length (messages s)))
  = Some botReply /\
  List.length (messages (run es (handleSend s)))
  = S (S (List.length (messages s))) /\
  (timers s = [] ->
   forall early, forallb sendsNothing early = true -> elapsed early < 1000 ->
   messages (run early (handleSend s)) = messages (handleSend s)).
Proof.
  intros R T Q D. apply truthy_true in T.
  destruct (reachable_invariants s R) as [W _].
  destruct (reply_after_delay s es W T Q D) as [M _].
  assert (S1 : messages (handleSend s)
               = messages s ++ [userMessage (inputValue s)])
    by (rewrite (handleSend_sent s T); reflexivity).
  rewrite M, S1.
  split; [rewrite <- app_assoc; reflexivity|].
  split.
  { change [userMessage (inputValue s); botReply]
      with ([userMessage (inputValue s)] ++ [botReply]).
    rewrite app_assoc, countSender_snoc. reflexivity. }
  split; [reflexivity|]. split; [reflexivity|].
  split; [rewrite nth_error_app2, Nat.sub_diag; [reflexivity | lia]|].
  split.
  { rewrite nth_error_app2 by lia.
    replace (S (List.length (messages s)) - List.length (messages s))%nat
      with 1%nat by lia.
    reflexivity. }
  split; [rewrite length_app; simpl; lia|].
  intros T0 early Q' D'. rewrite <- S1.
  apply quiet_before_delay; assumption.
Qed.

Lemma reply_follows_user_message_witness :
  let s := step (SetDraft (js "Empfehlen Sie mir einen Weißwein"))
             initialSession in
  let es := [SelectTab cellar; Elapse 400; SelectTab chat; Elapse 600] in
  reachable s /\
  trim (inputValue s) <> [] /\
  forallb sendsNothing es = true /\
  1000 <= elapsed es /\
  messages (run es (handleSend s)) = messages (handleSend s) ++ [botReply].
Proof.
  intros s es.
  assert (R : reachable s)
    by (apply reachable_step; [apply reachable_initial | reflexivity]).
  assert (T : trim (inputValue s) <> []) by (vm_compute; discriminate).
  assert (Q : forallb sendsNothing es = true) by reflexivity.
  assert (D : 1000 <= elapsed es) by (apply N.leb_le; reflexivity).
  split; [exact R | split; [exact T | split; [exact Q | split; [exact D|]]]].
  exact (proj1 (reply_follows_user_message s es R T Q D)).
Defined.

(** C10: the reply is the same message whatever was sent and whatever the
    conversation held.  Every timer callback appends [botReply] to the list
    it captured; so for two sessions, each with a send that passes the
    check and is followed by no other send, the messages appended once the
    delay is over agree in sender, text and wines. *)
Theorem bot_reply_is_constant (s1 s2 : Session) (es1 es2 : list Event) :
  reachable s1 -> reachable s2 ->
  trim (inputValue s1) <> [] -> trim (inputValue s2) <> [] ->
  forallb sendsNothing es1 = true -> forallb sendsNothing es2 = true ->
  1000 <= elapsed es1 -> 1000 <= elapsed es2 ->
  (forall (t : Timer) (st : Session),
      messages (timerCallback t st) = newMessages t ++ [botReply]) /\
  exists b1 b2,
    messages (run es1 (handleSend s1)) = messages (handleSend s1) ++ [b1] /\
    messages (run es2 (handleSend s2)) = messages (handleSend s2) ++ [b2] /\
    sender b1 = sender b2 /\ text b1 = text b2 /\ wines b1 = wines b2 /\
    b1 = botReply.
Proof.
  intros R1 R2 T1 T2 Q1 Q2 D1 D2.
  split; [intros t st; apply timerCallback_messages|].
  apply truthy_true in T1, T2.
  destruct (reachable_invariants s1 R1) as [W1 _].
  destruct (reachable_invariants s2 R2) as [W2 _].
  destruct (reply_after_delay s1 es1 W1 T1 Q1 D1) as [M1 _].
  destruct (reply_after_delay s2 es2 W2 T2 Q2 D2) as [M2 _].
  exists botReply, botReply.
  rewrite M1, M2, (handleSend_sent s1 T1), (handleSend_sent s2 T2). simpl.
  rewrite <- !app_assoc. repeat split.
Qed.

Lemma bot_reply_is_constant_witness :
  let s1 := step (SetDraft (js "Rotwein")) initialSession in
  let s2 := run [ SetDraft (js "Champagner"); Send; Elapse 1000;
                  SelectTab profile; SelectTab chat;
                  SetDraft (js "Was passt zu Fisch?") ] initialSession in
  reachable s1 /\ reachable s2 /\
  trim (inputValue s1) <> [] /\ trim (inputValue s2) <> [] /\
  inputValue s1 <> inputValue s2 /\ messages s1 <> messages s2 /\
  exists b1 b2,
    messages (run [Elapse 1000] (handleSend s1))
    = messages (handleSend s1) ++ [b1] /\
    messages (run [Elapse 250; Elapse 750] (handleSend s2))
    = messages (handleSend s2) ++ [b2] /\
    sender b1 = sender b2 /\ text b1 = text b2 /\ wines b1 = wines b2 /\
    b1 = botReply.
Proof.
  intros s1 s2.
  assert (R1 : reachable s1)
    by (apply reachable_step; [apply reachable_initial | reflexivity]).
  assert (R2 : reachable s2)
    by (apply reachable_run; [apply reachable_initial | reflexivity]).
  assert (T1 : trim (inputValue s1) <> []) by (vm_compute; discriminate).
  assert (T2 : trim (inputValue s2) <> []) by (vm_compute; discriminate).
  split; [exact R1 | split; [exact R2|]].
  split; [exact T1 | split; [exact T2|]].
  split; [vm_compute; discriminate|].
  split; [vm_compute; discriminate|].
  apply (bot_reply_is_constant s1 s2 [Elapse 1000] [Elapse 250; Elapse 750]
           R1 R2 T1 T2 eq_refl eq_refl).
  - apply N.leb_le; reflexivity.
  - apply N.leb_le; reflexivity.
Defined.

(** ** Two sends before the first reply *)

Lemma rapidSends_reachable : reachable (run rapidSends initialSession).
Proof. apply reachable_run; [apply reachable_initial | reflexivity]. Qed.

(** X10: from any session without pending timers, when a second draft is
    sent less than 1000 ms after the first and 1000 ms then pass without a
    send, the list ends with the two user messages and a single reply. *)
Lemma second_send_overwrites_first_reply
  (s : Session) (d1 d2 : jsstring) (gap : N) (es : list Event) :
  timers s = [] -> trim d1 <> [] -> trim d2 <> [] -> gap < 1000 ->
  forallb sendsNothing es = true -> 1000 <= elapsed es ->
  messages
    (run ([SetDraft d1; Send; Elapse gap; SetDraft d2; Send] ++ es) s)
  = messages s ++ [userMessage d1; userMessage d2; botReply].
Proof.
  intros T0 N1 N2 G Q D. apply truthy_true in N1, N2.
  set (sA := step (SetDraft d1) s).
  set (sC := run [Elapse gap] (handleSend sA)).
  set (sD := step (SetDraft d2) sC).
  change (run ([SetDraft d1; Send; Elapse gap; SetDraft d2; Send] ++ es) s)
    with (run es (handleSend sD)).
  assert (WA : timersInWindow sA /\ sortedByDue (timers sA)).
  { unfold sA, timersInWindow. simpl. rewrite T0. split; constructor. }
  assert (WD : timersInWindow sD /\ sortedByDue (timers sD)).
  { unfold sD, sC. apply step_invariants.
    change (run [Elapse gap] (handleSend sA))
      with (step (Elapse gap) (step Send sA)).
    apply step_invariants, step_invariants. exact WA. }
  destruct (reply_after_delay sD es (proj1 WD) N2 Q D) as [M _].
  rewrite M.
  assert (MC : messages sC = messages s ++ [userMessage d1]).
  { unfold sC. rewrite (quiet_before_delay sA [Elapse gap]).
    - rewrite (handleSend_sent sA N1). reflexivity.
    - exact T0.
    - exact N1.
    - reflexivity.
    - simpl. lia. }
  change (messages sD) with (messages sC). rewrite MC.
  rewrite <- app_assoc. reflexivity.
Qed.

(** C2 at the input where the code departs from it: two drafts are sent
    100 ms apart, both timers are pending, and both then fire.  The list
    ends with the two user messages and one bot reply: the first callback
    writes the list it captured (without the second user message) plus the
    reply, and the second callback writes the list it captured (without the
    first reply) plus the reply. *)
Theorem rapid_sends_leave_one_reply :
  let s := run rapidSends initialSession in
  let final := run [Elapse 900; Elapse 100] s in
  reachable s /\
  messages s
  = seedMessages
      ++ [userMessage (js "Rotwein"); userMessage (js "Champagner")] /\
  map due (timers s) = [1000; 1100] /\ now s = 100 /\
  messages (step (Elapse 900) s)
  = seedMessages ++ [userMessage (js "Rotwein"); botReply] /\
  messages final
  = seedMessages
      ++ [userMessage (js "Rotwein"); userMessage (js "Champagner");
          botReply] /\
  timers final = [] /\
  countSender user (messages final) = (2 + countSender user seedMessages)%nat /\
  countSender bot (messages final) = (1 + countSender bot seedMessages)%nat /\
  (forall d, messages (step (Elapse d) final) = messages final).
Proof.
  intros s final.
  split; [exact rapidSends_reachable|].
  repeat (split; [vm_compute; reflexivity|]).
  intros d. apply (elapse_none_due d final). vm_compute. constructor.
Qed.

(** The handlers other than the timer callback only ever append. *)
Lemma handlers_append_only (e : Event) (s : Session) :
  (forall d, e <> Elapse d) -> isPrefix (messages s) (messages (step e s)).
Proof.
  intros NE.
  assert (Same : isPrefix (messages s) (messages s))
    by (exists []; symmetry; apply app_nil_r).
  assert (Sent : isPrefix (messages s) (messages (handleSend s))).
  { destruct (truthy (trim (inputValue s))) eqn:T.
    - rewrite (handleSend_sent s T). eexists. reflexivity.
    - rewrite (handleSend_blank s T). exact Same. }
  destruct e as [tab|v|k| |d]; simpl step.
  - exact Same.
  - exact Same.
  - destruct (handleKeyPress_cases k s) as [E|E]; rewrite E; assumption.
  - exact Sent.
  - exfalso. apply (NE d). reflexivity.
Qed.

(** A callback that fires while the list is still the one it captured
    appends as well. *)
Lemma elapse_append_only_in_sync (d : N) (s : Session) (t : Timer) :
  timers s = [t] -> newMessages t = messages s ->
  isPrefix (messages s) (messages (elapse d s)).
Proof.
  intros E C. destruct (N.ltb_spec (now s + d) (due t)) as [Lt|Ge].
  - destruct (elapse_none_due d s) as [M _].
    + rewrite E. constructor; [exact Lt | constructor].
    + rewrite M. exists []. symmetry. apply app_nil_r.
  - destruct (elapse_all_due d s [] t E) as [M _].
    + rewrite E. constructor; [exact Ge | constructor].
    + rewrite M, C. eexists. reflexivity.
Qed.

(** C3 at the input where the code departs from it: with two sends
    pending, the first timer callback replaces the list by the one it
    captured plus the reply; the second user message, already in the list,
    is gone, and the list before the callback is not a prefix of the list
    after it. *)
Theorem timer_callback_drops_message :
  let s := run rapidSends initialSession in
  let s' := step (Elapse 900) s in
  reachable s /\
  messages s
  = seedMessages
      ++ [userMessage (js "Rotwein"); userMessage (js "Champagner")] /\
  messages s' = seedMessages ++ [userMessage (js "Rotwein"); botReply] /\
  In (userMessage (js "Champagner")) (messages s) /\
  ~ In (userMessage (js "Champagner")) (messages s') /\
  ~ isPrefix (messages s) (messages s').
Proof.
  intros s s'.
  split; [exact rapidSends_reachable|].
  split; [vm_compute; reflexivity|].
  split; [vm_compute; reflexivity|].
  split; [vm_compute; tauto|].
  split.
  - vm_compute. intros H.
    repeat (destruct H as [H|H]; [discriminate H|]). exact H.
  - intros [k E]. vm_compute in E.
    injection E as E. discriminate E.
Qed.

(** ** Rendering *)

Lemma views_rendered (s : Session) :
  filter isRendered (views (activeTab s) (inputValue s) (messages s))
  = [viewBody s].
Proof. unfold viewBody, views. destruct (activeTab s); reflexivity. Qed.

Lemma view_bodies_differ (msgs : list Message) (input : jsstring) :
  ChatView msgs input <> ProfileView /\
  ChatView msgs input <> CellarView /\
  ProfileView <> CellarView.
Proof.
  split; [discriminate|]. split; [discriminate|].
  unfold ProfileView, CellarView. intros H.
  injection H as H _. vm_compute in H. discriminate H.
Qed.

Lemma leaves_WineCard (w : Wine) : leaves (WineCard w) = wineLeaves w.
Proof. reflexivity. Qed.

Lemma leaves_cards (props : list JsxProp) (ws : list Wine) :
  leaves (Element "div" props (map WineCard ws)) = flat_map wineLeaves ws.
Proof.
  induction ws as [|w ws IH]; [reflexivity|].
  change (leaves (Element "div" props (map WineCard (w :: ws))))
    with (leaves (WineCard w) ++ leaves (Element "div" props (map WineCard ws))).
  rewrite IH, leaves_WineCard. reflexivity.
Qed.

Lemma leaves_MessageView (m : Message) :
  leaves (MessageView m) = messageLeaves m.
Proof.
  destruct m as [sd tx ws]. unfold messageLeaves. cbn [sender text wines].
  assert (W : leaves (wineCards ws)
              = flat_map wineLeaves (match ws with
                                     | Some l => l
                                     | None => []
                                     end)).
  { destruct ws as [l|]; [apply leaves_cards | reflexivity]. }
  rewrite <- W, <- (app_nil_r (leaves (wineCards ws))).
  destruct sd; destruct ws as [l|]; reflexivity.
Qed.

Lemma leaves_messages (props : list JsxProp) (msgs : list Message) :
  leaves (Element "div" props (map MessageView msgs))
  = flat_map messageLeaves msgs.
Proof.
  induction msgs as [|m msgs IH]; [reflexivity|].
  change (leaves (Element "div" props (map MessageView (m :: msgs))))
    with (leaves (MessageView m)
            ++ leaves (Element "div" props (map MessageView msgs))).
  rewrite IH, leaves_MessageView. reflexivity.
Qed.

Lemma map_injective {A B : Type} (f : A -> B) :
  (forall x y, f x = f y -> x = y) ->
  forall l l', map f l = map f l' -> l = l'.
Proof.
  intros I. induction l as [|a l IH]; intros [|b l'] H;
    try discriminate H; [reflexivity|].
  simpl in H. injection H as H1 H2. apply I in H1. apply IH in H2.
  subst. reflexivity.
Qed.

Lemma WineCard_injective (w1 w2 : Wine) : WineCard w1 = WineCard w2 -> w1 = w2.
Proof.
  destruct w1, w2. unfold WineCard. cbn [name region grape points description price].
  intros H. injection H as -> -> -> -> -> ->. reflexivity.
Qed.

Lemma wineCards_injective (ws1 ws2 : option (list Wine)) :
  wineCards ws1 = wineCards ws2 -> ws1 = ws2.
Proof.
  destruct ws1 as [l1|], ws2 as [l2|]; cbn [wineCards]; intros H;
    try discriminate H; [|reflexivity].
  injection H as H. f_equal.
  apply (map_injective WineCard WineCard_injective). exact H.
Qed.

Lemma MessageView_injective (m1 m2 : Message) :
  MessageView m1 = MessageView m2 -> m1 = m2.
Proof.
  destruct m1 as [sd1 tx1 ws1], m2 as [sd2 tx2 ws2].
  unfold MessageView. cbn [sender text wines]. intros H.
  injection H as Hc _ Ht Hw. apply wineCards_injective in Hw. subst.
  destruct sd1, sd2; try reflexivity; vm_compute in Hc; discriminate Hc.
Qed.

Lemma ChatView_injective (msgs msgs' : list Message) (input input' : jsstring) :
  ChatView msgs input = ChatView msgs' input' ->
  msgs = msgs' /\ input = input'.
Proof.
  unfold ChatView. intros H. injection H as Hm Hi. split; [|exact Hi].
  apply (map_injective MessageView MessageView_injective). exact Hm.
Qed.

(** C9: the tree on screen depends on the active tab, the draft and the
    message list only (not on the clock or the pending timers).  Below the
    header and the tab bar it holds exactly one view body, the one of the
    active tab, and the three bodies are different trees.  The chat body
    starts with the chat container, whose children are the messages in list
    order; a message shows its text and, when it has a [wines] list, the
    cards of that list in order, and nothing in that place otherwise.  A
    card shows the name, the points, the region, the grape, the description
    and the price of its wine, so that what the chat container shows is,
    message by message and in order, the label of the sommelier on bot
    messages, the text and the fields of every wine; two message lists or
    drafts that differ give different chat bodies. *)
Theorem render_shows_active_view :
  (forall tab input msgs now1 timers1 now2 timers2,
      render (mkSession tab input msgs now1 timers1)
      = render (mkSession tab input msgs now2 timers2)) /\
  (forall s : Session,
      exists header nav,
        render s
        = Element "div" [className "app"]
            (header :: nav
               :: views (activeTab s) (inputValue s) (messages s))) /\
  (forall s : Session,
      filter isRendered (views (activeTab s) (inputValue s) (messages s))
      = [match activeTab s with
         | chat => ChatView (messages s) (inputValue s)
         | profile => ProfileView
         | cellar => CellarView
         end]) /\
  (forall msgs input,
      ChatView msgs input <> ProfileView /\
      ChatView msgs input <> CellarView /\
      ProfileView <> CellarView) /\
  (forall msgs input,
      exists inputArea quick,
        ChatView msgs input
        = Fragment
            [ Element "div" [className "chat-container"]
                (map MessageView msgs);
              inputArea; quick ]) /\
  (forall m : Message,
      exists props label,
        MessageView m
        = Element "div" props
            [ label;
              Element "div" [className "message-bubble"] [Text (text m)];
              wineCards (wines m) ]) /\
  (forall ws : list Wine,
      wineCards (Some ws)
      = Element "div" [className "wine-cards"] (map WineCard ws)) /\
  wineCards None = Nothing /\
  (forall w : Wine,
      leaves (WineCard w)
      = [ ([js "wine-name"], Text (name w));
          ([js "wine-badge"], Number (points w));
          ([js "wine-badge"], Text (js " Pkt"));
          ([js "wine-meta"], Text (region w));
          ([js "wine-meta"], Text (js " · "));
          ([js "wine-meta"], Text (grape w));
          ([js "wine-description"], Text (description w));
          ([js "wine-price"], Text (price w));
          ([js "wine-button"], Text (js "Mehr Details")) ]) /\
  (forall m : Message,
      leaves (MessageView m)
      = (if Sender_eqb (sender m) bot
         then [([js "message-label"], Text (js "Sommelier"))]
         else [])
        ++ [([js "message-bubble"], Text (text m))]
        ++ flat_map (fun w => leaves (WineCard w))
             (match wines m with
              | Some ws => ws
              | None => []
              end)) /\
  (forall msgs : list Message,
      leaves (Element "div" [className "chat-container"]
                (map MessageView msgs))
      = flat_map (fun m => leaves (MessageView m)) msgs) /\
  (forall w1 w2 : Wine, WineCard w1 = WineCard w2 -> w1 = w2) /\
  (forall m1 m2 : Message, MessageView m1 = MessageView m2 -> m1 = m2) /\
  (forall msgs msgs' input input',
      ChatView msgs input = ChatView msgs' input' ->
      msgs = msgs' /\ input = input').
Proof.
  split; [reflexivity|].
  split; [intros s; eexists; eexists; reflexivity|].
  split; [exact views_rendered|].
  split; [exact view_bodies_differ|].
  split; [intros msgs input; eexists; eexists; reflexivity|].
  split; [intros m; eexists; eexists; reflexivity|].
  split; [reflexivity|]. split; [reflexivity|].
  split; [exact leaves_WineCard|].
  split.
  { intros m. rewrite leaves_MessageView. reflexivity. }
  split.
  { intros msgs. rewrite leaves_messages. apply flat_map_ext. intros m.
    symmetry. apply leaves_MessageView. }
  split; [exact WineCard_injective|].
  split; [exact MessageView_injective | exact ChatView_injective].
Qed.

(** The chat body of the seed conversation determines the seed
    conversation. *)
Lemma render_shows_active_view_witness :
  let msgs := firstn 3 (seedMessages ++ [botReply]) in
  ChatView seedMessages (js "Rotwein") = ChatView msgs (js "Rotwein") /\
  seedMessages = msgs /\ js "Rotwein" = js "Rotwein".
Proof.
  intros msgs. split; [reflexivity|].
  destruct render_shows_active_view
    as (_ & _ & _ & _ & _ & _ & _ & _ & _ & _ & _ & _ & _ & Inj).
  apply (Inj seedMessages msgs (js "Rotwein") (js "Rotwein")). reflexivity.
Defined.

(** The listeners of the tree lead to the handlers of the model. *)
Lemma dispatch_matches_step (s : Session) (arg : jsstring) (t : Tab) :
  dispatch (Call_setActiveTab t) arg s = step (SelectTab t) s /\
  dispatch Call_onSend arg s = step Send s /\
  dispatch Call_setInputValue arg s = step (SetDraft arg) s /\
  dispatch Call_handleKeyPress arg s = step (KeyPress arg) s.
Proof. repeat split. Qed.

(** * Further properties of the handlers *)

(** ** The guard of [handleSend] *)

Lemma trimStart_nil (v : jsstring) :
  trimStart v = [] <-> forallb isTrimmed v = true.
Proof.
  induction v as [|c r IH]; simpl; [tauto|].
  destruct (isTrimmed c); simpl; [exact IH|].
  split; discriminate.
Qed.

Lemma trimStart_blank_or_kept (v : jsstring) :
  trimStart v = [] \/
  exists c r, trimStart v = c :: r /\ isTrimmed c = false.
Proof.
  induction v as [|c r IH]; simpl; [left; reflexivity|].
  destruct (isTrimmed c) eqn:E; [exact IH|].
  right. exists c, r. split; [reflexivity | exact E].
Qed.

Lemma forallb_rev {A : Type} (f : A -> bool) (l : list A) :
  forallb f (rev l) = true <-> forallb f l = true.
Proof.
  rewrite !forallb_forall. split; intros H x X; apply H.
  - apply in_rev in X. exact X.
  - apply in_rev. exact X.
Qed.

Lemma trim_nil (v : jsstring) :
  trim v = [] <-> forallb isTrimmed v = true.
Proof.
  unfold trim, trimEnd. split.
  - intros H. apply (f_equal (@rev code_unit)) in H.
    rewrite rev_involutive in H. simpl in H.
    apply trimStart_nil in H. apply (proj1 (forallb_rev _ _)) in H.
    destruct (trimStart_blank_or_kept v) as [E|(c & r & E & W)].
    + apply trimStart_nil. exact E.
    + rewrite E in H. cbn [forallb] in H. rewrite W in H. discriminate H.
  - intros H. apply trimStart_nil in H. rewrite H. reflexivity.
Qed.

(** X1: [handleSend] leaves the session as it is exactly when every code
    unit of the draft is white space or a line terminator (the empty draft
    included); a draft with one other character anywhere is sent. *)
Theorem handleSend_fixes_blank_drafts_only (s : Session) :
  handleSend s = s <-> forallb isTrimmed (inputValue s) = true.
Proof.
  rewrite <- trim_nil. split.
  - intros E. destruct (truthy (trim (inputValue s))) eqn:T.
    + exfalso. rewrite (handleSend_sent s T) in E.
      apply (f_equal (fun x => List.length (messages x))) in E.
      simpl in E. rewrite length_app in E. simpl in E. lia.
    + apply truthy_false. exact T.
  - intros E. apply handleSend_blank, truthy_false. exact E.
Qed.

(** ** The Enter key *)

Lemma js_eqb_eq (a b : jsstring) : JsString.eqb a b = true <-> a = b.
Proof.
  unfold JsString.eqb. destruct (list_eq_dec N.eq_dec a b) as [E|E].
  - tauto.
  - split; [discriminate | contradiction].
Qed.

Lemma keyPress_by_key (key : jsstring) (s : Session) :
  step (KeyPress key) s
  = if JsString.eqb key (js "Enter") then step Send s else s.
Proof.
  change (step (KeyPress key) s) with (handleKeyPress key s).
  change (step Send s) with (handleSend s).
  unfold handleKeyPress.
  destruct (JsString.eqb key (js "Enter")); cbn [andb]; [|reflexivity].
  destruct (truthy (trim (inputValue s))) eqn:T; [reflexivity|].
  symmetry. apply handleSend_blank. exact T.
Qed.

(** X2: in the input field the Enter key does what the send button does,
    on every session (the second check of the draft in [handleKeyPress]
    changes nothing), and every other key leaves the session alone. *)
Theorem enter_key_is_send_button (key : jsstring) (s : Session) :
  handleKeyPress (js "Enter") s = handleSend s /\
  (JsString.eqb key (js "Enter") = true <-> key = js "Enter") /\
  handleKeyPress key s
  = if JsString.eqb key (js "Enter") then handleSend s else s.
Proof.
  split; [exact (keyPress_by_key (js "Enter") s)|].
  split; [apply js_eqb_eq | exact (keyPress_by_key key s)].
Qed.

(** ** Sending twice *)

Lemma handleSend_twice (s : Session) :
  handleSend (handleSend s) = handleSend s.
Proof.
  destruct (truthy (trim (inputValue s))) eqn:T.
  - apply handleSend_blank. rewrite (handleSend_sent s T). reflexivity.
  - rewrite (handleSend_blank s T). apply handleSend_blank. exact T.
Qed.

(** X3: a send leaves an empty draft behind, so sending again without
    typing does nothing: any number of clicks on the send button and of
    Enter keys in a row has the effect of the first one. *)
Theorem repeated_send_sends_once (es : list Event) (s : Session) :
  Forall (fun e => e = Send \/ e = KeyPress (js "Enter")) es ->
  run (Send :: es) s = handleSend s.
Proof.
  intros H. rewrite run_cons. simpl step.
  induction H as [|e es [E|E] _ IH]; [reflexivity| |]; subst e;
    rewrite run_cons.
  - simpl step. rewrite handleSend_twice. exact IH.
  - change (step (KeyPress (js "Enter")) (handleSend s))
      with (handleKeyPress (js "Enter") (handleSend s)).
    destruct (handleKeyPress_cases (js "Enter") (handleSend s)) as [K|K];
      rewrite K; [|rewrite handleSend_twice]; exact IH.
Qed.

Lemma repeated_send_sends_once_witness :
  let s := setInputValue (js "Rotwein") initialSession in
  let es := [Send; KeyPress (js "Enter"); Send] in
  Forall (fun e => e = Send \/ e = KeyPress (js "Enter")) es /\
  run (Send :: es) s = handleSend s /\
  messages (handleSend s) = seedMessages ++ [userMessage (js "Rotwein")].
Proof.
  intros s es.
  assert (H : Forall (fun e => e = Send \/ e = KeyPress (js "Enter")) es).
  { constructor; [left; reflexivity|].
    constructor; [right; reflexivity|].
    constructor; [left; reflexivity | constructor]. }
  split; [exact H|].
  split; [exact (repeated_send_sends_once es s H) | reflexivity].
Defined.

(** * Further properties of the timers *)

(** X4: in every reachable session the pending timers are queued in the
    order in which they become due, and each one becomes due after now and
    at most 1000 ms from now. *)
Theorem pending_timers_due_in_order (s : Session) :
  reachable s ->
  sortedByDue (timers s) /\
  Forall (fun t => now s < due t /\ due t <= now s + 1000) (timers s).
Proof.
  intros R. destruct (reachable_invariants s R) as [W S].
  split; [exact S | exact W].
Qed.

Lemma pending_timers_due_in_order_witness :
  let s := run rapidSends initialSession in
  reachable s /\
  map due (timers s) = [1000; 1100] /\ now s = 100 /\
  sortedByDue (timers s) /\
  Forall (fun t => now s < due t /\ due t <= now s + 1000) (timers s).
Proof.
  intros s.
  split; [exact rapidSends_reachable|].
  split; [reflexivity | split; [reflexivity|]].
  exact (pending_timers_due_in_order s rapidSends_reachable).
Defined.

Lemma step_now (e : Event) (s : Session) :
  now (step e s) = now s + duration e.
Proof.
  assert (S : now (handleSend s) = now s).
  { destruct (truthy (trim (inputValue s))) eqn:T.
    - rewrite (handleSend_sent s T). reflexivity.
    - rewrite (handleSend_blank s T). reflexivity. }
  destruct e as [t|v|k| |d]; simpl step; simpl duration.
  - simpl. lia.
  - simpl. lia.
  - destruct (handleKeyPress_cases k s) as [E|E]; rewrite E; lia.
  - lia.
  - apply elapse_now.
Qed.

Lemma run_now (es : list Event) (s : Session) :
  now (run es s) = now s + elapsed es.
Proof.
  revert s. induction es as [|e es IH]; intros s.
  - simpl. lia.
  - rewrite run_cons, IH, step_now, elapsed_cons. lia.
Qed.

Lemma run_invariants (es : list Event) (s : Session) :
  timersInWindow s /\ sortedByDue (timers s) ->
  timersInWindow (run es s) /\ sortedByDue (timers (run es s)).
Proof.
  revert s. induction es as [|e es IH]; intros s H; [exact H|].
  rewrite run_cons. apply IH, step_invariants. exact H.
Qed.

(** Without a send no timer is added. *)
Lemma quiet_step_timers (e : Event) (s : Session) :
  sendsNothing e = true -> incl (timers (step e s)) (timers s).
Proof.
  intros Q. destruct e as [t|v|k| |d]; simpl step.
  - apply incl_refl.
  - apply incl_refl.
  - simpl in Q. apply negb_true_iff in Q.
    rewrite (handleKeyPress_other_key k s Q). apply incl_refl.
  - discriminate Q.
  - rewrite elapse_timers. apply incl_filter.
Qed.

Lemma quiet_run_timers (es : list Event) (s : Session) :
  forallb sendsNothing es = true -> incl (timers (run es s)) (timers s).
Proof.
  revert s. induction es as [|e es IH]; intros s Q; [apply incl_refl|].
  simpl in Q. apply andb_true_iff in Q. destruct Q as [Q1 Q2].
  rewrite run_cons. eapply incl_tran; [apply IH; exact Q2|].
  apply quiet_step_timers. exact Q1.
Qed.

(** Without a pending timer and without a send nothing touches the list. *)
Lemma idle_run (es : list Event) (s : Session) :
  timers s = [] -> forallb sendsNothing es = true ->
  messages (run es s) = messages s /\ timers (run es s) = [].
Proof.
  revert s. induction es as [|e es IH]; intros s T Q; [split; auto|].
  simpl in Q. apply andb_true_iff in Q. destruct Q as [Q1 Q2].
  rewrite run_cons.
  assert (S : messages (step e s) = messages s /\ timers (step e s) = []).
  { destruct e as [t|v|k| |d]; simpl step.
    - split; [reflexivity | exact T].
    - split; [reflexivity | exact T].
    - simpl in Q1. apply negb_true_iff in Q1.
      rewrite (handleKeyPress_other_key k s Q1). split; [reflexivity | exact T].
    - discriminate Q1.
    - destruct (elapse_none_due d s) as [M' T'].
      + rewrite T. constructor.
      + rewrite M', T'. split; [reflexivity | exact T]. }
  destruct S as [S1 S2]. destruct (IH (step e s) S2 Q2) as [I1 I2].
  rewrite I1, S1. split; [reflexivity | exact I2].
Qed.

(** X5: once 1000 ms have passed without a send, no reply is pending any
    more, and from then on the message list stays as it is until the next
    send, whatever tabs are selected, whatever is typed and however much
    time passes. *)
Theorem conversation_settles (s : Session) (es later : list Event) :
  reachable s ->
  forallb sendsNothing es = true -> 1000 <= elapsed es ->
  forallb sendsNothing later = true ->
  timers (run es s) = [] /\
  messages (run later (run es s)) = messages (run es s) /\
  timers (run later (run es s)) = [].
Proof.
  intros R Q D Q'.
  assert (T : timers (run es s) = []).
  { pose proof (reachable_invariants s R) as I.
    destruct (run_invariants es s I) as [W' _].
    destruct I as [W _].
    pose proof (quiet_run_timers es s Q) as Sub.
    destruct (timers (run es s)) as [|t ts] eqn:E; [reflexivity|].
    exfalso.
    assert (In1 : In t (timers s)) by (apply Sub; left; reflexivity).
    unfold timersInWindow in W, W'. rewrite Forall_forall in W.
    specialize (W t In1). rewrite E in W'.
    inversion W' as [|? ? [L _] _]. rewrite run_now in L. lia. }
  split; [exact T|]. apply idle_run; assumption.
Qed.

Lemma conversation_settles_witness :
  let s := run rapidSends initialSession in
  let es := [SelectTab profile; Elapse 1000] in
  let later := [SelectTab chat; SetDraft (js "Danke"); Elapse 5000] in
  reachable s /\ List.length (timers s) = 2%nat /\
  forallb sendsNothing es = true /\ 1000 <= elapsed es /\
  forallb sendsNothing later = true /\
  timers (run es s) = [] /\
  messages (run later (run es s)) = messages (run es s) /\
  timers (run later (run es s)) = [].
Proof.
  intros s es later.
  assert (D : 1000 <= elapsed es) by (apply N.leb_le; reflexivity).
  split; [exact rapidSends_reachable|].
  split; [reflexivity|].
  split; [reflexivity|]. split; [exact D|]. split; [reflexivity|].
  exact (conversation_settles s es later rapidSends_reachable
           eq_refl D eq_refl).
Defined.

(** * The shape of the conversation *)

Lemma endsWithUser_app (b : bool) (l1 l2 : list Message) :
  endsWithUser b (l1 ++ l2) = endsWithUser (endsWithUser b l1) l2.
Proof.
  revert b. induction l1 as [|m l1 IH]; intros b; [reflexivity|].
  simpl. apply IH.
Qed.

Lemma repliesFollowUser_app (b : bool) (l1 l2 : list Message) :
  repliesFollowUser b (l1 ++ l2)
  = repliesFollowUser b l1 && repliesFollowUser (endsWithUser b l1) l2.
Proof.
  revert b. induction l1 as [|m l1 IH]; intros b; [reflexivity|].
  simpl. rewrite IH, andb_assoc. reflexivity.
Qed.

Lemma runCallbacks_messages (ts : list Timer) (s : Session) :
  messages (runCallbacks ts s) = messages s \/
  exists t, In t ts /\ messages (runCallbacks ts s) = newMessages t ++ [botReply].
Proof.
  destruct ts as [|t0 ts0]; [left; reflexivity|]. right.
  destruct (@exists_last _ (t0 :: ts0)) as (ts' & t & E); [discriminate|].
  rewrite E. exists t. split.
  - apply in_or_app. right. left. reflexivity.
  - rewrite runCallbacks_snoc. reflexivity.
Qed.

Lemma handleSend_shape (s : Session) :
  wellShaped (messages s) /\ Forall capturedShape (timers s) ->
  wellShaped (messages (handleSend s)) /\
  Forall capturedShape (timers (handleSend s)).
Proof.
  intros [(tail & M & A & F) C].
  destruct (truthy (trim (inputValue s))) eqn:T.
  - rewrite (handleSend_sent s T). simpl messages. simpl timers.
    assert (A' : Forall addedByHandlers (tail ++ [userMessage (inputValue s)])).
    { apply Forall_app. split; [exact A|]. constructor; [|constructor].
      right. repeat split. apply truthy_true. exact T. }
    assert (F' : repliesFollowUser false
                   (tail ++ [userMessage (inputValue s)]) = true).
    { rewrite repliesFollowUser_app, F. reflexivity. }
    assert (E' : messages s ++ [userMessage (inputValue s)]
                 = seedMessages ++ tail ++ [userMessage (inputValue s)]).
    { rewrite M, <- app_assoc. reflexivity. }
    split.
    + exists (tail ++ [userMessage (inputValue s)]). repeat split; assumption.
    + apply Forall_app. split; [exact C|]. constructor; [|constructor].
      exists (tail ++ [userMessage (inputValue s)]).
      repeat split; try assumption.
      rewrite endsWithUser_app. reflexivity.
  - rewrite (handleSend_blank s T). split; [|exact C].
    exists tail. repeat split; assumption.
Qed.

Lemma step_shape (e : Event) (s : Session) :
  wellShaped (messages s) /\ Forall capturedShape (timers s) ->
  wellShaped (messages (step e s)) /\ Forall capturedShape (timers (step e s)).
Proof.
  intros H. destruct e as [t|v|k| |d]; simpl step.
  - exact H.
  - exact H.
  - destruct (handleKeyPress_cases k s) as [E|E]; rewrite E;
      [exact H | apply handleSend_shape; exact H].
  - apply handleSend_shape. exact H.
  - destruct H as [W C]. rewrite elapse_timers. split.
    + unfold elapse.
      match goal with
      | |- wellShaped (messages (runCallbacks ?ts ?st)) =>
          destruct (runCallbacks_messages ts st) as [E|(t & I & E)]; rewrite E
      end.
      * exact W.
      * apply filter_In in I. destruct I as [I _].
        rewrite Forall_forall in C.
        destruct (C t I) as (tail & M & A & F & U).
        exists (tail ++ [botReply]). rewrite M, <- app_assoc.
        split; [reflexivity|]. split.
        -- apply Forall_app. split; [exact A|].
           constructor; [left; reflexivity | constructor].
        -- rewrite repliesFollowUser_app, F, U. reflexivity.
    + rewrite Forall_forall in *. intros t I. apply filter_In in I.
      apply C. apply I.
Qed.

(** X6: in every reachable session the message list is the seed
    conversation followed by messages the handlers added: each of them is
    the simulated reply or a user message without wines whose text does not
    trim to the empty string, and every simulated reply stands directly
    behind a user message. *)
Theorem conversation_keeps_its_shape (s : Session) :
  reachable s ->
  exists tail,
    messages s = seedMessages ++ tail /\
    Forall (fun m => m = botReply \/
                     (sender m = user /\ wines m = None /\ trim (text m) <> []))
      tail /\
    repliesFollowUser false tail = true.
Proof.
  intros R.
  assert (H : wellShaped (messages s) /\ Forall capturedShape (timers s)).
  { induction R as [|e s R IH En].
    - split; [|constructor]. exists []. repeat split. constructor.
    - apply step_shape. exact IH. }
  exact (proj1 H).
Qed.

Lemma conversation_keeps_its_shape_witness :
  let s := run (rapidSends ++ [Elapse 900]) initialSession in
  reachable s /\
  exists tail,
    messages s = seedMessages ++ tail /\
    Forall (fun m => m = botReply \/
                     (sender m = user /\ wines m = None /\ trim (text m) <> []))
      tail /\
    repliesFollowUser false tail = true.
Proof.
  intros s.
  assert (R : reachable s)
    by (apply reachable_run; [apply reachable_initial | reflexivity]).
  split; [exact R|].
  exact (conversation_keeps_its_shape s R).
Defined.

(** * Sends that do not overlap *)

Lemma isPrefix_refl {A : Type} (l : list A) : isPrefix l l.
Proof. exists []. symmetry. apply app_nil_r. Qed.

Lemma isPrefix_trans {A : Type} (l1 l2 l3 : list A) :
  isPrefix l1 l2 -> isPrefix l2 l3 -> isPrefix l1 l3.
Proof.
  intros [k1 E1] [k2 E2]. exists (k1 ++ k2).
  rewrite E2, E1, app_assoc. reflexivity.
Qed.

Lemma inSync_send (s : Session) :
  timers s = [] ->
  inSync (handleSend s) /\ isPrefix (messages s) (messages (handleSend s)).
Proof.
  intros T. destruct (truthy (trim (inputValue s))) eqn:G.
  - rewrite (handleSend_sent s G). simpl. split.
    + right. eexists. rewrite T. split; reflexivity.
    + eexists. reflexivity.
  - rewrite (handleSend_blank s G). split; [left; exact T | apply isPrefix_refl].
Qed.

Lemma inSync_elapse (d : N) (s : Session) :
  inSync s ->
  inSync (elapse d s) /\ isPrefix (messages s) (messages (elapse d s)).
Proof.
  intros [T|(t & T & C)].
  - destruct (elapse_none_due d s) as [M' T'].
    + rewrite T. constructor.
    + rewrite M'. split; [left; rewrite T'; exact T | apply isPrefix_refl].
  - destruct (N.ltb_spec (now s + d) (due t)) as [Lt|Ge].
    + destruct (elapse_none_due d s) as [M' T'].
      * rewrite T. constructor; [exact Lt | constructor].
      * rewrite M'. split; [|apply isPrefix_refl].
        right. exists t. rewrite T', M'. split; assumption.
    + destruct (elapse_all_due d s [] t T) as [M' T'].
      * rewrite T. constructor; [exact Ge | constructor].
      * rewrite M', C. split; [left; exact T' | eexists; reflexivity].
Qed.

Lemma inSync_step (e : Event) (s : Session) :
  inSync s -> (sendsNothing e || noTimerPending s) = true ->
  inSync (step e s) /\ isPrefix (messages s) (messages (step e s)).
Proof.
  intros I P.
  assert (Keep : inSync s /\ isPrefix (messages s) (messages s))
    by (split; [exact I | apply isPrefix_refl]).
  assert (Sent : noTimerPending s = true ->
                 inSync (handleSend s) /\
                 isPrefix (messages s) (messages (handleSend s))).
  { unfold noTimerPending. intros N0. apply inSync_send.
    destruct (timers s); [reflexivity | discriminate N0]. }
  destruct e as [t|v|k| |d].
  - exact Keep.
  - exact Keep.
  - rewrite keyPress_by_key.
    change (sendsNothing (KeyPress k))
      with (negb (JsString.eqb k (js "Enter"))) in P.
    destruct (JsString.eqb k (js "Enter")); [|exact Keep].
    apply Sent. exact P.
  - apply Sent. exact P.
  - apply inSync_elapse. exact I.
Qed.

(** X9: as long as no send happens while a reply is pending, the message
    list only grows at its end: starting without a pending timer, the list
    before a run of such events is a prefix of the list after it. *)
Theorem patient_sends_only_append (es : list Event) (s : Session) :
  timers s = [] -> patient es s = true ->
  isPrefix (messages s) (messages (run es s)).
Proof.
  intros T. assert (I : inSync s) by (left; exact T). clear T.
  revert s I. induction es as [|e es IH]; intros s I P; [apply isPrefix_refl|].
  simpl in P. apply andb_true_iff in P. destruct P as [P1 P2].
  destruct (inSync_step e s I P1) as [I' Pre].
  rewrite run_cons. eapply isPrefix_trans; [exact Pre|].
  apply IH; assumption.
Qed.

Lemma patient_sends_only_append_witness :
  let es := [ SetDraft (js "Rotwein"); Send; SelectTab cellar; Elapse 1000;
              SelectTab chat; SetDraft (js "Champagner");
              KeyPress (js "Enter"); Elapse 400; Elapse 600 ] in
  timers initialSession = [] /\ patient es initialSession = true /\
  isPrefix (messages initialSession) (messages (run es initialSession)) /\
  List.length (messages (run es initialSession)) = 7%nat.
Proof.
  intros es.
  split; [reflexivity | split; [reflexivity|]].
  split; [|reflexivity].
  exact (patient_sends_only_append es initialSession eq_refl eq_refl).
Defined.

Lemma second_send_overwrites_first_reply_witness :
  let es := [Elapse 250; SelectTab profile; Elapse 750] in
  timers initialSession = [] /\
  trim (js "Rotwein") <> [] /\ trim (js "Champagner") <> [] /\
  100 < 1000 /\ forallb sendsNothing es = true /\ 1000 <= elapsed es /\
  messages
    (run ([ SetDraft (js "Rotwein"); Send; Elapse 100;
            SetDraft (js "Champagner"); Send ] ++ es) initialSession)
  = messages initialSession
      ++ [userMessage (js "Rotwein"); userMessage (js "Champagner"); botReply].
Proof.
  intros es.
  assert (N1 : trim (js "Rotwein") <> []) by (vm_compute; discriminate).
  assert (N2 : trim (js "Champagner") <> []) by (vm_compute; discriminate).
  assert (G : 100 < 1000) by reflexivity.
  assert (D : 1000 <= elapsed es) by (apply N.leb_le; reflexivity).
  split; [reflexivity|].
  split; [exact N1 | split; [exact N2 | split; [exact G|]]].
  split; [reflexivity | split; [exact D|]].
  exact (second_send_overwrites_first_reply initialSession (js "Rotwein")
           (js "Champagner") 100 es eq_refl N1 N2 G eq_refl D).
Defined.

(** * Further properties of the view tree *)

Section Collect.

Variable B : Type.
Variable f : VNode -> list B.

Lemma collect_children (children : list VNode) :
  flat_map f (flat_map elements children)
  = flat_map (fun c => flat_map f (elements c)) children.
Proof.
  induction children as [|c r IH]; [reflexivity|].
  simpl. rewrite flat_map_app, IH. reflexivity.
Qed.

Lemma collect_Element (tag : string) (props : list JsxProp)
  (children : list VNode) :
  flat_map f (elements (Element tag props children))
  = f (Element tag props children)
      ++ flat_map (fun c => flat_map f (elements c)) children.
Proof.
  change (elements (Element tag props children))
    with (Element tag props children :: flat_map elements children).
  simpl flat_map at 1. rewrite collect_children. reflexivity.
Qed.

Lemma collect_Fragment (children : list VNode) :
  flat_map f (elements (Fragment children))
  = flat_map (fun c => flat_map f (elements c)) children.
Proof. apply collect_children. Qed.

Lemma collect_nothing (g : VNode -> list B) (l : list VNode) :
  (forall c, In c l -> g c = []) -> flat_map g l = [].
Proof.
  induction l as [|c r IH]; intros H; [reflexivity|].
  simpl. rewrite (H c (or_introl eq_refl)). apply IH.
  intros x X. apply H. right. exact X.
Qed.

(** A collector that finds nothing on plain elements finds nothing in a
    tree of plain elements. *)
Hypothesis f_plain : forall e, plain e -> f e = [].

Lemma collect_plain (n : VNode) :
  Forall plain (elements n) -> flat_map f (elements n) = [].
Proof.
  intros P. apply collect_nothing. intros e E. apply f_plain.
  rewrite Forall_forall in P. apply P. exact E.
Qed.

End Collect.

Lemma WineCard_plain (w : Wine) : Forall plain (elements (WineCard w)).
Proof. repeat (constructor; [split; reflexivity|]). constructor. Qed.

Lemma wineCards_plain (ws : option (list Wine)) :
  Forall plain (elements (wineCards ws)).
Proof.
  destruct ws as [l|]; [|constructor].
  unfold wineCards.
  change (Forall plain
            (Element "div" [className "wine-cards"] (map WineCard l)
               :: flat_map elements (map WineCard l))).
  constructor; [split; reflexivity|].
  apply Forall_flat_map. rewrite Forall_forall. intros c C.
  apply in_map_iff in C. destruct C as (w & E & _). subst c.
  apply WineCard_plain.
Qed.

Lemma MessageView_plain (m : Message) : Forall plain (elements (MessageView m)).
Proof.
  destruct m as [sd tx ws]. unfold MessageView. cbn [sender text wines].
  match goal with
  | |- Forall plain (elements (Element ?t ?p [?a; ?b; ?c])) =>
      change (Forall plain
                (Element t p [a; b; c]
                   :: elements a ++ elements b ++ elements c ++ []))
  end.
  constructor; [split; reflexivity|].
  apply Forall_app. split.
  { destruct sd; cbn [Sender_eqb jsxAnd elements];
      [constructor; [split; reflexivity | constructor] | constructor]. }
  apply Forall_app. split.
  { constructor; [split; reflexivity | constructor]. }
  rewrite app_nil_r. apply wineCards_plain.
Qed.

(** What is collected in the chat body comes from the parts of it that are
    not messages. *)
Lemma ChatView_collect {B : Type} (f : VNode -> list B)
  (msgs : list Message) (input : jsstring) :
  (forall e, plain e -> f e = []) ->
  flat_map f (elements (ChatView msgs input))
  = flat_map f (elements (ChatView [] input)).
Proof.
  intros P.
  assert (C : forall ch,
             f (Element "div" [className "chat-container"] ch) = [])
    by (intros ch; apply P; split; reflexivity).
  assert (M : flat_map (fun c => flat_map f (elements c))
                (map MessageView msgs) = []).
  { apply collect_nothing. intros c I.
    apply in_map_iff in I. destruct I as (m & E & _). subst c.
    apply collect_plain; [exact P | apply MessageView_plain]. }
  unfold ChatView. rewrite !collect_Fragment.
  cbn [flat_map]. rewrite !collect_Element, !C, M. reflexivity.
Qed.

Lemma App_collect {B : Type} (f : VNode -> list B) (tab : Tab)
  (input : jsstring) (msgs : list Message) (header nav : VNode) :
  flat_map (fun c => flat_map f (elements c))
    (header :: nav :: views tab input msgs)
  = flat_map f (elements header) ++ flat_map f (elements nav)
      ++ match tab with
         | chat => flat_map f (elements (ChatView msgs input))
         | profile => flat_map f (elements ProfileView)
         | cellar => flat_map f (elements CellarView)
         end.
Proof.
  unfold views. destruct tab; cbn [flat_map Tab_eqb jsxAnd elements];
    rewrite ?app_nil_r; reflexivity.
Qed.

Lemma render_collect {B : Type} (f : VNode -> list B) (s : Session) :
  (forall e, plain e -> f e = []) ->
  flat_map f (elements (render s))
  = flat_map f
      (elements (render (mkSession (activeTab s) (inputValue s) [] 0 []))).
Proof.
  intros P.
  assert (R : forall ch, f (Element "div" [className "app"] ch) = [])
    by (intros ch; apply P; split; reflexivity).
  unfold render, App. cbn [activeTab inputValue messages].
  rewrite !collect_Element, !R. cbn [app]. rewrite !App_collect.
  destruct (activeTab s); try reflexivity.
  rewrite (ChatView_collect f (messages s) (inputValue s) P). reflexivity.
Qed.

Lemma listeners_plain (e : VNode) :
  plain e ->
  map (fun kh => (placeOf e, fst kh, snd kh)) (handlersOf (propsOf e)) = [].
Proof. intros [H _]. rewrite H. reflexivity. Qed.

Lemma values_plain (e : VNode) :
  plain e -> map (fun v => (placeOf e, v)) (valuesOf "value" (propsOf e)) = [].
Proof. intros [_ H]. rewrite H. reflexivity. Qed.

(** X7: the listeners of the tree on screen are: always, an [onClick] on
    each of the three tab buttons that selects its tab; and on the chat tab
    only, [onChange] and [onKeyPress] on the input field, which set the
    draft and handle the key, and [onClick] on the send button, which sends.
    No other element carries a listener, so outside the chat tab nothing on
    screen can change the draft or send it. *)
Theorem listeners_on_screen (s : Session) :
  listeners (render s)
  = map (fun t => ("button"%string,
                   [if Tab_eqb (activeTab s) t
                    then js "tab active" else js "tab "],
                   "onClick"%string, Call_setActiveTab t))
      [chat; profile; cellar]
    ++ (if Tab_eqb (activeTab s) chat
        then [ ("input"%string, [js "input-field"], "onChange"%string,
                Call_setInputValue);
               ("input"%string, [js "input-field"], "onKeyPress"%string,
                Call_handleKeyPress);
               ("button"%string, [js "send-button"], "onClick"%string,
                Call_onSend) ]
        else []).
Proof.
  unfold listeners. rewrite (render_collect _ s listeners_plain).
  destruct (activeTab s); reflexivity.
Qed.

(** X8: the [value] attribute occurs in the tree on screen once on the
    chat tab, on the [input] element of class [input-field], where it is
    the draft, and not at all on the other tabs; after a change of the
    field to [v] it is [v]. *)
Theorem draft_on_screen (s : Session) (v : jsstring) :
  attributeValues "value" (render s)
  = (if Tab_eqb (activeTab s) chat
     then [("input"%string, [js "input-field"], inputValue s)] else []) /\
  attributeValues "value" (render (step (SetDraft v) s))
  = (if Tab_eqb (activeTab s) chat
     then [("input"%string, [js "input-field"], v)] else []).
Proof.
  assert (H : forall s',
             attributeValues "value" (render s')
             = if Tab_eqb (activeTab s') chat
               then [("input"%string, [js "input-field"], inputValue s')]
               else []).
  { intros s'. unfold attributeValues.
    rewrite (render_collect _ s' values_plain).
    destruct (activeTab s'); reflexivity. }
  split; [apply H|]. rewrite H. reflexivity.
Qed.

(** * The tab bar *)

Lemma tabButtons_plain (e : VNode) :
  plain e ->
  match e with
  | Element tag props children =>
      if String.eqb tag "button" then
        flat_map (fun kh =>
                    match kh with
                    | (k, Call_setActiveTab t) =>
                        if String.eqb k "onClick"
                        then [(t, valuesOf "className" props, children)]
                        else []
                    | _ => []
                    end)
          (handlersOf props)
      else []
  | _ => []
  end = [].
Proof.
  intros [H _]. destruct e as [tag props children| | | |]; try reflexivity.
  cbn [propsOf] in H. rewrite H. destruct (String.eqb tag "button"); reflexivity.
Qed.

(** X11: the tree on screen has three [button] elements whose [onClick]
    selects a tab, one per entry of [tabs] and in that order (chat,
    profile, cellar), each showing the label of its tab; the button of the
    active tab has the class [tab active] and the two others the class
    [tab ] (with its blank).  After the [onClick] handler of the button of
    tab [t] has run, it is the button of [t] that is marked. *)
Theorem one_tab_marked_active (s : Session) (t : Tab) (arg : jsstring) :
  tabButtons (render s)
  = map (fun tab => (id tab,
                     [if Tab_eqb (activeTab s) (id tab)
                      then js "tab active" else js "tab "],
                     [Text (label tab)]))
      tabs /\
  map id tabs = [chat; profile; cellar] /\
  tabButtons (render (dispatch (Call_setActiveTab t) arg s))
  = map (fun tab => (id tab,
                     [if Tab_eqb t (id tab)
                      then js "tab active" else js "tab "],
                     [Text (label tab)]))
      tabs.
Proof.
  assert (H : forall s',
             tabButtons (render s')
             = map (fun tab => (id tab,
                                [if Tab_eqb (activeTab s') (id tab)
                                 then js "tab active" else js "tab "],
                                [Text (label tab)]))
                 tabs).
  { intros s'. unfold tabButtons.
    rewrite (render_collect _ s' tabButtons_plain).
    destruct (activeTab s'); reflexivity. }
  split; [apply H|]. split; [reflexivity|]. rewrite H. reflexivity.
Qed.
